(** * ArchiPy [archipy/configs/base_config.py]: the configuration singleton

    A shallow embedding of [BaseConfig]: its settings ([model_config]), the
    order of its settings sources ([settings_customise_sources]), the
    post-load hook ([customize]) and the process-wide registry
    ([global_config], [set_global], [reload]).

    Python objects live in a heap of attribute dictionaries addressed by
    references, because [customize] writes through [self.ELASTIC_APM] and the
    registry hands out references, not copies.  Exceptions are values of
    [exn]; an operation returns its outcome together with the state it
    leaves behind, as a raising Python call does.

    The precedence merge and the binding of a merged tree onto a schema are
    done by the settings library [BaseConfig] inherits from, whose code is
    not part of [base_config.py]; they are modelled from the specification
    and every such definition says so. *)

From Stdlib Require Import Ascii.
From stdpp Require Import gmap strings list fin_maps.

Open Scope string_scope.

(* ===================================================================== *)
(** * Exceptions and outcomes *)
(* ===================================================================== *)

(** The exception classes the module raises or lets through. *)
Inductive exn_class :=
| AssertionError
| RuntimeError
| AttributeError
| ValidationError
| SourceError
| TypeError
| ValueError.

#[global] Instance exn_class_eq_dec : EqDecision exn_class.
Proof. solve_decision. Defined.

(** A raised exception: its class and its message. *)
Record exn := Raise { exn_cls : exn_class; exn_msg : string }.

(** What an [except C:] clause catches: the class itself and the classes
    derived from it.  The validation error of the settings library derives
    from [ValueError]; the other classes are siblings below [Exception]. *)
Definition except_catches (handler : exn_class) (e : exn) : bool :=
  bool_decide (exn_cls e = handler)
  || (bool_decide (handler = ValueError)
      && bool_decide (exn_cls e = ValidationError)).

Inductive outcome (A : Type) :=
| Ok (a : A)
| Err (e : exn).
Arguments Ok {A} a.
Arguments Err {A} e.

Definition is_ok {A} (r : outcome A) : bool :=
  match r with Ok _ => true | Err _ => false end.

(* ===================================================================== *)
(** * [model_config] and the settings sources *)
(* ===================================================================== *)

Inductive extra_policy := ExtraIgnore | ExtraForbid | ExtraAllow.

(** The keys of [SettingsConfigDict] that [BaseConfig.model_config] sets. *)
Record SettingsConfigDict := {
  case_sensitive : bool;
  pyproject_toml_depth : nat;
  env_file : string;
  pyproject_toml_table_header : list string;
  extra : extra_policy;
  env_nested_delimiter : string;
  env_ignore_empty : bool;
}.

Definition model_config : SettingsConfigDict := {|
  case_sensitive := true;
  pyproject_toml_depth := 3;
  env_file := ".env";
  pyproject_toml_table_header := ["tool"; "configs"];
  extra := ExtraIgnore;
  env_nested_delimiter := "__";
  env_ignore_empty := true;
|}.

(** The settings sources, one constructor per provider class.  The two TOML
    sources are built from the settings class, as in the source. *)
Inductive PydanticBaseSettingsSource :=
| InitSettingsSource
| EnvSettingsSource
| DotEnvSettingsSource
| SecretsSettingsSource
| PyprojectTomlConfigSettingsSource (settings_cls : string)
| TomlConfigSettingsSource (settings_cls : string).

#[global] Instance source_eq_dec : EqDecision PydanticBaseSettingsSource.
Proof. solve_decision. Defined.

(** [BaseConfig.settings_customise_sources]: the tuple it returns. *)
Definition settings_customise_sources
    (settings_cls : string)
    (init_settings env_settings dotenv_settings file_secret_settings
       : PydanticBaseSettingsSource)
  : list PydanticBaseSettingsSource :=
  [ file_secret_settings;
    PyprojectTomlConfigSettingsSource settings_cls;
    TomlConfigSettingsSource settings_cls;
    env_settings;
    dotenv_settings;
    init_settings ].

(** The sources as the settings library passes them in. *)
Definition sources_of (settings_cls : string) : list PydanticBaseSettingsSource :=
  settings_customise_sources settings_cls
    InitSettingsSource EnvSettingsSource DotEnvSettingsSource
    SecretsSettingsSource.

(** The six tiers of the documented priority order (class docstring,
    "Configuration Loading Priority (Highest to Lowest)"). *)
Inductive tier :=
| SecretFiles
| ProjectManifest
| DedicatedConfigFile
| OsEnvironment
| LocalEnvFile
| SchemaDefaults.

#[global] Instance tier_eq_dec : EqDecision tier.
Proof. solve_decision. Defined.

(** Position of a tier in the priority order, 1 being the highest. *)
Definition tier_rank (t : tier) : nat :=
  match t with
  | SecretFiles => 1
  | ProjectManifest => 2
  | DedicatedConfigFile => 3
  | OsEnvironment => 4
  | LocalEnvFile => 5
  | SchemaDefaults => 6
  end.

Definition tier_of (s : PydanticBaseSettingsSource) : tier :=
  match s with
  | SecretsSettingsSource => SecretFiles
  | PyprojectTomlConfigSettingsSource _ => ProjectManifest
  | TomlConfigSettingsSource _ => DedicatedConfigFile
  | EnvSettingsSource => OsEnvironment
  | DotEnvSettingsSource => LocalEnvFile
  | InitSettingsSource => SchemaDefaults
  end.

(* ===================================================================== *)
(** * The precedence merger *)
(* ===================================================================== *)

(** Modelled from the spec: the merged tree of section 3 ("a nested mapping
    from key segment to either a scalar value or another MergedTree").  The
    merger is the settings library's, not in [base_config.py]. *)
#[warnings="-register-all"]
Inductive Tree :=
| Scalar (v : string)
| Node (kids : gmap string Tree).

(** Modelled from the spec: a RawEntry, "a key path (ordered sequence of
    string segments) mapped to a scalar or structured raw value", and a
    SourceResult, "an ordered list of RawEntry". *)
Definition RawEntry : Type := list string * Tree.
Definition SourceResult : Type := list RawEntry.

Definition empty_tree : Tree := Node ∅.

(** Modelled from the spec: "inserting a nested object merges recursively
    into an existing nested object at that path, otherwise replaces it
    outright"; a scalar "overwrites any existing value". *)
Fixpoint deep_update (V : Tree) (t : option Tree) {struct V} : Tree :=
  match V with
  | Scalar s => Scalar s
  | Node vs =>
      match t with
      | Some (Node ts) =>
          Node (merge (fun ov ot =>
                         match ov with
                         | Some v => Some (deep_update v ot)
                         | None => ot
                         end) vs ts)
      | _ => Node vs
      end
  end.

(** Modelled from the spec: insertion of one entry at its key path.  The
    walk descends through nested objects; where the accumulated tree has a
    scalar or nothing at an intermediate segment the entry's shape takes
    that place ("the higher-priority shape wins wholesale"). *)
Fixpoint insert_at (p : list string) (V : Tree) (t : option Tree) {struct p} : Tree :=
  match p with
  | [] => deep_update V t
  | k :: p' =>
      let ks := match t with Some (Node ks) => ks | _ => ∅ end in
      Node (<[k := insert_at p' V (ks !! k)]> ks)
  end.

Definition insert_entry (t : Tree) (e : RawEntry) : Tree :=
  insert_at e.1 e.2 (Some t).

(** All entries of one source, in the order the source lists them. *)
Definition insert_source (s : SourceResult) (t : Tree) : Tree :=
  fold_left insert_entry s t.

(** Modelled from the spec: [merge(sources)], the sources given highest
    priority first; "iterate sources from lowest to highest precedence,
    inserting each source's entries into the accumulating tree". *)
Fixpoint merge_sources (sources : list SourceResult) : Tree :=
  match sources with
  | [] => empty_tree
  | s :: lower => insert_source s (merge_sources lower)
  end.

(** The value a tree holds at a key path. *)
Fixpoint lookup_path (K : list string) (t : Tree) : option Tree :=
  match K with
  | [] => Some t
  | k :: K' =>
      match t with
      | Node ks =>
          match ks !! k with
          | Some c => lookup_path K' c
          | None => None
          end
      | Scalar _ => None
      end
  end.

(** The nested object an entry stands for: [nest [A;B] v] is [{A:{B:v}}]. *)
Fixpoint nest (p : list string) (V : Tree) : Tree :=
  match p with
  | [] => V
  | k :: p' => Node {[ k := nest p' V ]}
  end.

(** A tree says nothing about path [K]: walking [K] leaves the tree at a
    nested object that lacks the next segment. *)
Fixpoint silent_on (K : list string) (t : Tree) : bool :=
  match K with
  | [] => false
  | k :: K' =>
      match t with
      | Scalar _ => false
      | Node ks =>
          match ks !! k with
          | None => true
          | Some c => silent_on K' c
          end
      end
  end.

(** A source says nothing about [K] when none of its entries does. *)
Definition source_silent_on (K : list string) (s : SourceResult) : bool :=
  forallb (fun e : RawEntry => silent_on K (nest e.1 e.2)) s.

(** The child an accumulated tree has under segment [k], if any. *)
Definition child (k : string) (ot : option Tree) : option Tree :=
  match ot with Some (Node ts) => ts !! k | _ => None end.

(** [ot'] keeps the scalar leaves of [ot]: wherever [ot] holds a scalar,
    [ot'] holds the same scalar. *)
Definition leaves_kept (ot ot' : option Tree) : Prop :=
  forall P v,
    ot ≫= lookup_path P = Some (Scalar v) ->
    ot' ≫= lookup_path P = Some (Scalar v).

(** The value a source defines at [K], taken on its own. *)
Definition source_value (s : SourceResult) (K : list string) : option Tree :=
  lookup_path K (insert_source s empty_tree).

(* ===================================================================== *)
(** * Source providers *)
(* ===================================================================== *)

(** Modelled from the spec: splitting a flat key on the nesting delimiter
    ("the Merger must split on this delimiter before insertion"), scanning
    left to right as [str.split] does.  [cur] is the segment read so far and
    [skip] counts the delimiter characters still to drop. *)
Fixpoint split_go (d s cur : string) (skip : nat) {struct s} : list string :=
  match s with
  | EmptyString => [cur]
  | String c s' =>
      match skip with
      | S n => split_go d s' cur n
      | O =>
          if String.prefix d s
          then cur :: split_go d s' "" (String.length d - 1)
          else split_go d s' (cur +:+ String c "") 0
      end
  end.

Definition split_key (d s : string) : list string := split_go d s "" 0.

(** Joining segments with the delimiter: how a flat key encodes a path. *)
Definition join_key (d : string) (segs : list string) : string :=
  String.concat d segs.

(** A segment that survives the encoding with ["__"]: each of its
    underscores is followed by another character that is not an
    underscore, so that it neither contains the delimiter nor runs into the
    one that follows it. *)
Fixpoint seg_ok (s : string) : bool :=
  match s with
  | EmptyString => true
  | String c s' =>
      (negb (Ascii.eqb c "_"%char)
       || match s' with
          | String c' _ => negb (Ascii.eqb c' "_"%char)
          | EmptyString => false
          end)
      && seg_ok s'
  end.

(** Modelled from the spec: what an environment-style provider keeps of the
    raw variables.  With [env_ignore_empty] a variable whose value is the
    empty string is dropped before anything else looks at it ("some
    providers ignore empty values entirely"). *)
Definition parse_env_vars (cfg : SettingsConfigDict)
    (raw : list (string * string)) : list (string * string) :=
  List.filter
    (fun kv : string * string => negb (env_ignore_empty cfg && String.eqb kv.2 ""))
    raw.

(** Modelled from the spec: the entries of an environment-style source, one
    per kept variable, its key split on [env_nested_delimiter]. *)
Definition env_entries (cfg : SettingsConfigDict)
    (raw : list (string * string)) : SourceResult :=
  map (fun kv : string * string =>
         (split_key (env_nested_delimiter cfg) kv.1, Scalar kv.2))
      (parse_env_vars cfg raw).

(** Modelled from the spec: the origins the providers read, as they stand
    when a configuration object is built.  The structured origins are given
    as parsed entries (file parsing is outside the core); the two
    environment-style origins are flat name/value pairs. *)
Record World := {
  secrets_files : SourceResult;
  pyproject_toml : SourceResult;
  toml_file : SourceResult;
  os_environ : list (string * string);
  dotenv_file : list (string * string);
  init_kwargs : SourceResult;
}.

(** Modelled from the spec: [fetch() -> SourceResult] of each provider. *)
Definition fetch (cfg : SettingsConfigDict) (w : World)
    (s : PydanticBaseSettingsSource) : SourceResult :=
  match s with
  | SecretsSettingsSource => secrets_files w
  | PyprojectTomlConfigSettingsSource _ => pyproject_toml w
  | TomlConfigSettingsSource _ => toml_file w
  | EnvSettingsSource => env_entries cfg (os_environ w)
  | DotEnvSettingsSource => env_entries cfg (dotenv_file w)
  | InitSettingsSource => init_kwargs w
  end.

(** The merged tree a settings class is built from: every source of
    [settings_customise_sources] fetched and merged in that order. *)
Definition build_values (cfg : SettingsConfigDict) (settings_cls : string)
    (w : World) : Tree :=
  merge_sources (map (fetch cfg w) (sources_of settings_cls)).

(* ===================================================================== *)
(** * Objects and the heap *)
(* ===================================================================== *)

Definition loc := positive.

(** An attribute holds a scalar (strings, numbers and enum members, by
    their text) or a reference to another object. *)
Inductive value :=
| VScalar (s : string)
| VRef (l : loc).

#[global] Instance value_eq_dec : EqDecision value.
Proof. solve_decision. Defined.

(** How an object answers an attribute assignment: an ordinary instance
    takes any attribute; an object with declared attributes (the fields of a
    model, the slots of a class) takes those and raises [otherwise] for any
    other name; an object that takes none (a frozen model, a bare
    [object()]) raises [why]. *)
Inductive assign_policy :=
| AnyAttribute
| DeclaredOnly (names : list string) (otherwise : exn_class)
| Refused (why : exn_class).

(** An object: its class, its attribute dictionary and how it answers
    assignments. *)
Record obj := Obj {
  obj_class : string;
  obj_dict : gmap string value;
  obj_policy : assign_policy;
}.

(** The exception class an assignment to [name] raises, if it raises. *)
Definition assignment_error (p : assign_policy) (name : string)
  : option exn_class :=
  match p with
  | AnyAttribute => None
  | DeclaredOnly names otherwise =>
      if bool_decide (name ∈ names) then None else Some otherwise
  | Refused why => Some why
  end.

Abbreviation heap := (gmap loc obj).

(** [type(x)]: a reference held by a Python program always denotes a live
    object; [None] is the answer for a location outside the heap only. *)
Definition type_of (h : heap) (x : loc) : option string :=
  obj_class <$> h !! x.

(** [x.name], reading. *)
Definition getattr (h : heap) (x : loc) (name : string) : option value :=
  h !! x ≫= fun o => obj_dict o !! name.

(** The heap after [name] of object [x] has been bound to [v]. *)
Definition store_attr (h : heap) (x : loc) (name : string) (v : value) : heap :=
  match h !! x with
  | Some o =>
      <[x := Obj (obj_class o) (<[name := v]> (obj_dict o)) (obj_policy o)]> h
  | None => h
  end.

(** [x.name = v]: the object decides whether it takes the assignment; when
    it does not, the exception it raises leaves the heap as it was. *)
Definition setattr (h : heap) (x : loc) (name : string) (v : value)
  : outcome unit * heap :=
  match h !! x with
  | Some o =>
      match assignment_error (obj_policy o) name with
      | None => (Ok (), store_attr h x name v)
      | Some cls => (Err (Raise cls name), h)
      end
  | None => (Err (Raise AttributeError name), h)
  end.

(** Object [x] is live and takes an assignment to [name]. *)
Definition accepts_assignment (h : heap) (x : loc) (name : string) : Prop :=
  exists o, h !! x = Some o /\ assignment_error (obj_policy o) name = None.

(** A method without arguments: from [self] and the heap to an outcome and
    the heap it leaves. *)
Definition method : Type := loc -> heap -> outcome unit * heap.

(* ===================================================================== *)
(** * The settings materializer *)
(* ===================================================================== *)

(** Modelled from the spec: a schema, "a typed structure whose fields
    declare a semantic type (scalar, enum, or nested schema) and optionally
    a default value".  [accepts] is the coercion check of a scalar or enum
    field. *)
#[warnings="-register-all"]
Inductive Schema :=
| SField (accepts : string -> bool) (default : option string)
| SStruct (cname : string) (fields : list (string * Schema)).

Definition validation_error (msg : string) : exn := Raise ValidationError msg.

(** Modelled from the spec: binding the fields of a structure in the order
    the schema declares them, [mat] materializing one field from the child
    the tree has under its name.  The first failure ends the binding. *)
Definition bind_fields
    (mat : Schema -> option Tree -> heap -> outcome value * heap)
    (ks : gmap string Tree)
  : list (string * Schema) -> heap -> gmap string value
    -> outcome (gmap string value) * heap :=
  fix bind fs h d {struct fs} :=
    match fs with
    | [] => (Ok d, h)
    | (f, sf) :: fs' =>
        match mat sf (ks !! f) h with
        | (Ok v, h1) => bind fs' h1 (<[f := v]> d)
        | (Err e, h1) => (Err e, h1)
        end
    end.

(** Modelled from the spec: [materialize(tree, schema)].  A field absent
    from the tree keeps its default; a required field that is missing, or a
    value of the wrong shape or refused by the coercion, is a
    [ValidationError]; keys the schema does not know are ignored.  Every
    structure is allocated as a new object, nested ones first; being a
    model, it takes assignments to its declared fields only. *)
Fixpoint materialize (s : Schema) (t : option Tree) (h : heap) {struct s}
  : outcome value * heap :=
  match s with
  | SField accepts default =>
      match t with
      | Some (Scalar v) =>
          if accepts v then (Ok (VScalar v), h)
          else (Err (validation_error "value cannot be coerced"), h)
      | Some (Node _) =>
          (Err (validation_error "scalar expected"), h)
      | None =>
          match default with
          | Some v => (Ok (VScalar v), h)
          | None => (Err (validation_error "field required"), h)
          end
      end
  | SStruct cname fields =>
      match t with
      | Some (Scalar _) => (Err (validation_error "structure expected"), h)
      | _ =>
          let ks := match t with Some (Node ks) => ks | _ => ∅ end in
          match bind_fields materialize ks fields h ∅ with
          | (Ok d, h1) =>
              let l := fresh (dom h1) in
              (Ok (VRef l),
               <[l := Obj cname d (DeclaredOnly (map fst fields) ValueError)]> h1)
          | (Err e, h1) => (Err e, h1)
          end
      end
  end.

(** [h'] extends [h]: every object of [h] is in [h'], unchanged. *)
Definition extends (h h' : heap) : Prop :=
  forall l o, h !! l = Some o -> h' !! l = Some o.

(** What one materialization may do to the heap. *)
Definition only_allocates (s : Schema) : Prop :=
  forall t (h : heap) r h',
    materialize s t h = (r, h') ->
    extends h h' /\ forall l, r = Ok (VRef l) -> h !! l = None.

(** Modelled from the spec: building an instance of a settings class, the
    pipeline "Source Providers -> Precedence Merger -> Settings
    Materializer" run against the world as it stands. *)
Definition BaseSettings_init (cname : string) (s : Schema) (w : World)
    (h : heap) : outcome loc * heap :=
  match materialize s (Some (build_values model_config cname w)) h with
  | (Ok (VRef l), h') => (Ok l, h')
  | (Ok (VScalar _), h') => (Err (validation_error "not a settings class"), h')
  | (Err e, h') => (Err e, h')
  end.

(** The declarations [base_config.py] imports and does not define: the
    fields of the templates of [archipy.configs.config_template] and the
    members of the two enums. *)
Record Imports := {
  config_template : string -> list (string * Schema);
  EnvironmentType : string -> bool;
  LanguageType : string -> bool;
}.

(** The fields of [BaseConfig], in the order of the class body.  A template
    field defaults to an instance of its template ([AuthConfig()], ...); the
    two enum fields default to [EnvironmentType.LOCAL] and
    [LanguageType.FA]. *)
Definition BaseConfig_fields (I : Imports) : list (string * Schema) :=
  let template name := SStruct name (config_template I name) in
  [ ("AUTH", template "AuthConfig");
    ("DATETIME", template "DatetimeConfig");
    ("ELASTIC", template "ElasticsearchConfig");
    ("ELASTIC_APM", template "ElasticsearchAPMConfig");
    ("EMAIL", template "EmailConfig");
    ("ENVIRONMENT", SField (EnvironmentType I) (Some "LOCAL"));
    ("FASTAPI", template "FastAPIConfig");
    ("FILE", template "FileConfig");
    ("GRPC", template "GrpcConfig");
    ("KAFKA", template "KafkaConfig");
    ("KAVENEGAR", template "KavenegarConfig");
    ("KEYCLOAK", template "KeycloakConfig");
    ("MINIO", template "MinioConfig");
    ("PARSIAN_SHAPARAK", template "ParsianShaparakConfig");
    ("PROMETHEUS", template "PrometheusConfig");
    ("REDIS", template "RedisConfig");
    ("SENTRY", template "SentryConfig");
    ("SQLALCHEMY", template "SQLAlchemyConfig");
    ("STARROCKS_SQLALCHEMY", template "StarRocksSQLAlchemyConfig");
    ("POSTGRES_SQLALCHEMY", template "PostgresSQLAlchemyConfig");
    ("SQLITE_SQLALCHEMY", template "SQLiteSQLAlchemyConfig");
    ("LANGUAGE", SField (LanguageType I) (Some "FA")) ].

Definition BaseConfig_schema (I : Imports) : Schema :=
  SStruct "BaseConfig" (BaseConfig_fields I).

(* ===================================================================== *)
(** * [BaseConfig.customize] *)
(* ===================================================================== *)

Definition attribute_error (msg : string) : exn := Raise AttributeError msg.

(** [self.ELASTIC_APM.ENVIRONMENT = self.ENVIRONMENT]: the right-hand side
    is read first, then the target object, then the attribute is set.  A
    missing attribute, a target that is not an object, or a target that
    does not take the assignment, raises. *)
Definition customize : method := fun self h =>
  match getattr h self "ENVIRONMENT" with
  | None => (Err (attribute_error "ENVIRONMENT"), h)
  | Some v =>
      match getattr h self "ELASTIC_APM" with
      | Some (VRef apm) => setattr h apm "ENVIRONMENT" v
      | _ => (Err (attribute_error "ELASTIC_APM"), h)
      end
  end.

(* ===================================================================== *)
(** * The singleton registry *)
(* ===================================================================== *)

(** What the classes of a program provide: [customize_of c] is the
    attribute [customize] found on instances of [c] when it is callable
    ([BaseConfig.customize] unless a subclass overrides it), and
    [construct_of c] is the call [c()], which reads the world. *)
Record class_env := {
  customize_of : string -> option method;
  construct_of : string -> World -> heap -> outcome loc * heap;
}.

(** What [__config_class_to_reload] can hold: a class, which
    [set_global] stores, or an object that is not a class. *)
Inductive callee :=
| ClassObject (c : string)
| Instance (l : loc).

Coercion ClassObject : string >-> callee.
Arguments Some {A} & a.

(** The interpreter state the classmethods act on: the heap, the two
    private class attributes of [BaseConfig] as a read through the class
    the methods are called on gives them ([None] being Python's [None]),
    and, as a ghost record, the instances [customize] has been invoked on,
    oldest first. *)
Record pystate := {
  heap_of : heap;
  __global_config : option loc;
  __config_class_to_reload : option callee;
  customize_calls : list loc;
}.

Definition with_heap (st : pystate) (h : heap) : pystate :=
  {| heap_of := h;
     __global_config := __global_config st;
     __config_class_to_reload := __config_class_to_reload st;
     customize_calls := customize_calls st |}.

(** The placeholder the model metaclass of the settings library keeps for
    a private attribute: an object with slots, of class
    [ModelPrivateAttr], that is not callable. *)
Definition private_attr : obj :=
  Obj "ModelPrivateAttr" {[ "default" := VScalar "None" ]}
    (DeclaredOnly ["default"; "default_factory"] AttributeError).

(** The state of a process that has not called [set_global], [h] holding
    the objects that exist otherwise.  The class body declares
    [__global_config] and [__config_class_to_reload] with an annotation
    that is not a [ClassVar] and the default [None]; their mangled names
    start with one underscore, so the metaclass of [BaseSettings] makes
    them private attributes, and a read through the class gives the
    placeholder of the attribute, not [None], until [set_global] assigns
    the attribute on the class. *)
Definition initial_state (h : heap) : pystate :=
  let global_config_attr := fresh (dom h) in
  let h1 := <[global_config_attr := private_attr]> h in
  let class_to_reload_attr := fresh (dom h1) in
  {| heap_of := <[class_to_reload_attr := private_attr]> h1;
     __global_config := Some global_config_attr;
     __config_class_to_reload := Some (Instance class_to_reload_attr);
     customize_calls := [] |}.

Definition assertion_error (msg : string) : exn := Raise AssertionError msg.
Definition runtime_error (msg : string) : exn := Raise RuntimeError msg.
Definition type_error (msg : string) : exn := Raise TypeError msg.

(** [BaseConfig.global_config]. *)
Definition global_config (st : pystate) : outcome loc * pystate :=
  match __global_config st with
  | None =>
      (Err (assertion_error
              "Global config not set. Call BaseConfig.set_global(MyConfig()) first."),
       st)
  | Some config => (Ok config, st)
  end.

(** The guarded call of [set_global]:
    [if hasattr(config, "customize") and callable(config.customize):
    config.customize()].  The registry attributes are not touched. *)
Definition call_customize (E : class_env) (config : loc) (st : pystate)
  : outcome unit * pystate :=
  match type_of (heap_of st) config ≫= customize_of E with
  | Some f =>
      let '(r, h') := f config (heap_of st) in
      (r, {| heap_of := h';
             __global_config := __global_config st;
             __config_class_to_reload := __config_class_to_reload st;
             customize_calls := customize_calls st ++ [config] |})
  | None => (Ok (), st)
  end.

(** The two assignments that end [set_global]. *)
Definition publish (config : loc) (st : pystate) : pystate :=
  {| heap_of := heap_of st;
     __global_config := Some config;
     __config_class_to_reload := ClassObject <$> type_of (heap_of st) config;
     customize_calls := customize_calls st |}.

(** [BaseConfig.set_global]. *)
Definition set_global (E : class_env) (config : loc) (st : pystate)
  : outcome unit * pystate :=
  match call_customize E config st with
  | (Ok _, st1) => (Ok (), publish config st1)
  | (Err e, st1) => (Err e, st1)
  end.

(** [BaseConfig.reload], the world being what the sources hold when it is
    called.  Calling what the attribute holds constructs an instance when
    it is a class and raises [TypeError] when it is an object that is not
    callable. *)
Definition reload (E : class_env) (w : World) (st : pystate)
  : outcome unit * pystate :=
  match __config_class_to_reload st with
  | None =>
      (Err (runtime_error "Cannot reload: config was never set with set_global()."),
       st)
  | Some (ClassObject config_class) =>
      match construct_of E config_class w (heap_of st) with
      | (Ok new_instance, h1) => set_global E new_instance (with_heap st h1)
      | (Err e, h1) => (Err e, with_heap st h1)
      end
  | Some (Instance _) => (Err (type_error "object is not callable"), st)
  end.

(** A call a program makes on the registry, and a run of such calls. *)
Inductive call :=
| CallSetGlobal (config : loc)
| CallReload (w : World)
| CallGlobalConfig.

Definition is_setter (c : call) : bool :=
  match c with CallGlobalConfig => false | _ => true end.

Definition do_call (E : class_env) (c : call) (st : pystate) : bool * pystate :=
  match c with
  | CallSetGlobal config => let '(r, st') := set_global E config st in (is_ok r, st')
  | CallReload w => let '(r, st') := reload E w st in (is_ok r, st')
  | CallGlobalConfig => let '(r, st') := global_config st in (is_ok r, st')
  end.

(** Runs the calls in order; the boolean tells whether some [set_global] or
    [reload] among them returned normally. *)
Fixpoint run_calls (E : class_env) (cs : list call) (st : pystate)
  : bool * pystate :=
  match cs with
  | [] => (false, st)
  | c :: cs' =>
      let '(ok, st1) := do_call E c st in
      let '(later, st2) := run_calls E cs' st1 in
      (is_setter c && ok || later, st2)
  end.

(** A state is unset when it holds neither an instance nor a class: the
    state the two [is None] guards test for. *)
Definition unset (st : pystate) : Prop :=
  __global_config st = None /\ __config_class_to_reload st = None.

(** What a well-behaved constructor guarantees: the objects that existed
    are left as they were, on failure too; the instance it returns is a new
    object of the class asked for, and so are the objects its attributes
    refer to. *)
Definition constructs_fresh (E : class_env) : Prop :=
  forall c w (h : heap) r h',
    construct_of E c w h = (r, h') ->
    (forall l o, h !! l = Some o -> h' !! l = Some o) /\
    (forall new, r = Ok new ->
       h !! new = None /\
       type_of h' new = Some c /\
       forall name a, getattr h' new name = Some (VRef a) -> h !! a = None).

(** The classes of a program that uses [BaseConfig] as it is: every
    instance finds [BaseConfig.customize], and [BaseConfig()] runs the
    pipeline over the schema of the class body. *)
Definition base_classes (I : Imports) : class_env := {|
  customize_of := fun _ => Some customize;
  construct_of := fun c w h =>
    if String.eqb c "BaseConfig"
    then BaseSettings_init c (BaseConfig_schema I) w h
    else (Err (Raise SourceError "no such settings class"), h);
|}.

(** One admissible reading of the imported declarations, for running the
    model: a telemetry template with an [ENVIRONMENT] field and two-member
    enums. *)
Definition sample_imports : Imports := {|
  config_template := fun name =>
    if String.eqb name "ElasticsearchAPMConfig"
    then [("ENVIRONMENT", SField (fun _ => true) (Some "LOCAL"));
          ("SERVICE_NAME", SField (fun _ => true) (Some "unknown-python-service"))]
    else [];
  EnvironmentType := fun s => String.eqb s "LOCAL" || String.eqb s "PRODUCTION";
  LanguageType := fun s => String.eqb s "FA" || String.eqb s "EN";
|}.

Definition empty_world : World := {|
  secrets_files := [];
  pyproject_toml := [];
  toml_file := [];
  os_environ := [];
  dotenv_file := [];
  init_kwargs := [];
|}.

(** A world in which the operating-system environment selects the
    production mode and the local env file names the telemetry service. *)
Definition sample_world : World := {|
  secrets_files := [];
  pyproject_toml := [];
  toml_file := [];
  os_environ := [("ENVIRONMENT", "PRODUCTION")];
  dotenv_file := [("ELASTIC_APM__SERVICE_NAME", "billing")];
  init_kwargs := [];
|}.


(** A world that configures both environment fields, differently: the
    mode in the operating-system environment, the telemetry one in the local
    env file. *)
Definition mixed_world : World := {|
  secrets_files := [];
  pyproject_toml := [];
  toml_file := [];
  os_environ := [("ENVIRONMENT", "PRODUCTION")];
  dotenv_file := [("ELASTIC_APM__ENVIRONMENT", "LOCAL")];
  init_kwargs := [];
|}.

(** A world whose [ENVIRONMENT] variable names no member of the enum: the
    materializer raises on it. *)
Definition broken_world : World := {|
  secrets_files := [];
  pyproject_toml := [];
  toml_file := [];
  os_environ := [("ENVIRONMENT", "NOWHERE")];
  dotenv_file := [];
  init_kwargs := [];
|}.

(** A world in which the project manifest gives the telemetry field a
    scalar while both environment-style origins name the service below
    it. *)
Definition shadowed_world : World := {|
  secrets_files := [];
  pyproject_toml := [(["ELASTIC_APM"], Scalar "off")];
  toml_file := [];
  os_environ := [("ELASTIC_APM__SERVICE_NAME", "billing")];
  dotenv_file := [("ELASTIC_APM__SERVICE_NAME", "ledger")];
  init_kwargs := [];
|}.

(** The world with another operating-system environment, or another local
    env file. *)
Definition with_os_environ (w : World) (raw : list (string * string)) : World := {|
  secrets_files := secrets_files w;
  pyproject_toml := pyproject_toml w;
  toml_file := toml_file w;
  os_environ := raw;
  dotenv_file := dotenv_file w;
  init_kwargs := init_kwargs w;
|}.

Definition with_dotenv_file (w : World) (raw : list (string * string)) : World := {|
  secrets_files := secrets_files w;
  pyproject_toml := pyproject_toml w;
  toml_file := toml_file w;
  os_environ := os_environ w;
  dotenv_file := raw;
  init_kwargs := init_kwargs w;
|}.

(** A world in which three sources give [ELASTIC_APM.ENVIRONMENT] three
    different values, below sources that hold other keys only, one of them
    under the same [ELASTIC_APM]. *)
Definition contested_world : World := {|
  secrets_files := [(["AUTH"; "SECRET_KEY"], Scalar "s3cret")];
  pyproject_toml :=
    [(["ELASTIC_APM"], Node {[ "SERVICE_NAME" := Scalar "billing" ]})];
  toml_file := [(["LANGUAGE"], Scalar "EN")];
  os_environ :=
    [("ENVIRONMENT", "PRODUCTION"); ("ELASTIC_APM__ENVIRONMENT", "STAGING")];
  dotenv_file :=
    [("ELASTIC_APM__ENVIRONMENT", "DEV"); ("LANGUAGE", "FA")];
  init_kwargs := [(["ELASTIC_APM"; "ENVIRONMENT"], Scalar "TEST")];
|}.

(** [set_global] in the spec's words: for every instance it stores the
    instance and its class, and never fails. *)
Definition set_never_fails_as_stated : Prop :=
  forall (E : class_env) (config : loc) (st : pystate) (c : string),
    type_of (heap_of st) config = Some c ->
    exists st',
      set_global E config st = (Ok (), st') /\
      __global_config st' = Some config /\
      __config_class_to_reload st' = Some c.

(** The precedence rule in the spec's words: when two sources define [K],
    the one of higher precedence gives the merged value (no source above it
    defining [K]), whatever the other sources hold. *)
Definition precedence_as_stated : Prop :=
  forall cls w K s s2 v v2,
    s ∈ sources_of cls -> s2 ∈ sources_of cls ->
    tier_rank (tier_of s) < tier_rank (tier_of s2) ->
    source_value (fetch model_config w s) K = Some (Scalar v) ->
    source_value (fetch model_config w s2) K = Some (Scalar v2) ->
    (forall s', s' ∈ sources_of cls ->
       tier_rank (tier_of s') < tier_rank (tier_of s) ->
       source_value (fetch model_config w s') K = None) ->
    lookup_path K (build_values model_config cls w) = Some (Scalar v).

(** The equivalence of flat and nested keys in the spec's words: for every
    key path and every scalar, the variable named by the joined path gives
    the accumulated tree what the nested entry gives it. *)
Definition flat_key_as_stated : Prop :=
  forall (segs p q : list string) (v : string) (t : Tree),
    segs <> [] ->
    Forall (fun s => seg_ok s = true) segs ->
    (p ++ q)%list = segs ->
    insert_source
      (env_entries model_config
         [(join_key (env_nested_delimiter model_config) segs, v)]) t
    = insert_source [(p, nest q (Scalar v))] t.

(** The default hook in the spec's words: on a freshly materialized
    instance it leaves every attribute of the instance, and of the
    structures the instance refers to, as it was. *)
Definition default_hook_is_noop (I : Imports) : Prop :=
  forall w (h : heap) x h1,
    BaseSettings_init "BaseConfig" (BaseConfig_schema I) w h = (Ok x, h1) ->
    forall name,
      getattr (customize x h1).2 x name = getattr h1 x name /\
      forall field sub,
        getattr h1 x field = Some (VRef sub) ->
        getattr (customize x h1).2 sub name = getattr h1 sub name.

(** [BaseConfig()] in the mixed world, on an empty heap. *)
Definition mixed_built : outcome loc * heap :=
  BaseSettings_init "BaseConfig" (BaseConfig_schema sample_imports)
    mixed_world ∅.

Definition sample_classes : class_env := base_classes sample_imports.

(** [BaseConfig()] in the sample world, on an empty heap. *)
Definition sample_built : outcome loc * heap :=
  BaseSettings_init "BaseConfig" (BaseConfig_schema sample_imports)
    sample_world ∅.

Definition sample_instance : loc :=
  Eval vm_compute in
    match sample_built.1 with Ok l => l | Err _ => 1%positive end.

(** The process right after [config = BaseConfig()], and after
    [BaseConfig.set_global(config)]. *)
Definition sample_unset_state : pystate := initial_state sample_built.2.

Definition sample_set_state : pystate :=
  (set_global sample_classes sample_instance sample_unset_state).2.

(** The registry is coherent when the class it remembers is the class of
    the instance it holds, and it remembers none while it holds none. *)
Definition coherent (st : pystate) : Prop :=
  match __global_config st with
  | Some i => __config_class_to_reload st = ClassObject <$> type_of (heap_of st) i
  | None => __config_class_to_reload st = None
  end.

(** Hooks that never change the class of an object, whether they return or
    raise. *)
Definition hooks_keep_classes (E : class_env) : Prop :=
  forall c f, customize_of E c = Some f ->
    forall self (h : heap) l, type_of (f self h).2 l = type_of h l.

(** A program in which no class overrides [BaseConfig.customize]. *)
Definition default_hooks (E : class_env) : Prop :=
  forall c f, customize_of E c = Some f -> f = customize.

(** The calls that are [set_global]. *)
Definition calls_set_global (c : call) : bool :=
  match c with CallSetGlobal _ => true | _ => false end.

(** Two configuration objects built around one telemetry object, as
    [shared = ElasticsearchAPMConfig()] passed to two constructors gives. *)
Definition shared_heap : heap :=
  {[ 1%positive :=
       Obj "ElasticsearchAPMConfig" {[ "ENVIRONMENT" := VScalar "LOCAL" ]}
         (DeclaredOnly ["ENVIRONMENT"] ValueError);
     2%positive :=
       Obj "BaseConfig"
         {[ "ENVIRONMENT" := VScalar "LOCAL"; "ELASTIC_APM" := VRef 1%positive ]}
         (DeclaredOnly ["ENVIRONMENT"; "ELASTIC_APM"] ValueError);
     3%positive :=
       Obj "BaseConfig"
         {[ "ENVIRONMENT" := VScalar "PRODUCTION";
            "ELASTIC_APM" := VRef 1%positive ]}
         (DeclaredOnly ["ENVIRONMENT"; "ELASTIC_APM"] ValueError) ]}.

(** An overriding hook that refuses the instance, as a subclass that
    validates in [customize] may. *)
Definition refusing_customize : method := fun self h =>
  (Err (validation_error "refused by customize"), h).

(** A program with a subclass [StrictConfig] that overrides the hook. *)
Definition strict_classes : class_env := {|
  customize_of := fun c =>
    if String.eqb c "StrictConfig" then Some refusing_customize
    else Some customize;
  construct_of := construct_of sample_classes;
|}.

(** The sample process, set, with one more object: a [StrictConfig]. *)
Definition strict_state : pystate :=
  with_heap sample_set_state
    (<[ 100%positive := Obj "StrictConfig" ∅ (DeclaredOnly [] ValueError) ]>
       (heap_of sample_set_state)).

(* ===================================================================== *)
(** * Heap operations *)
(* ===================================================================== *)

Lemma type_of_store_attr h x name v l :
  type_of (store_attr h x name v) l = type_of h l.
Proof.
  unfold type_of, store_attr. destruct (h !! x) as [o|] eqn:Hx; [|done].
  destruct (decide (l = x)) as [->|Hne].
  - by rewrite lookup_insert_eq, Hx.
  - by rewrite lookup_insert_ne.
Qed.

Lemma getattr_store_attr_same h x name v :
  is_Some (h !! x) -> getattr (store_attr h x name v) x name = Some v.
Proof.
  intros [o Hx]. unfold getattr, store_attr. rewrite Hx.
  rewrite lookup_insert_eq. simpl. by rewrite lookup_insert_eq.
Qed.

Lemma getattr_store_attr_other h x name v l name' :
  (l, name') ≠ (x, name) ->
  getattr (store_attr h x name v) l name' = getattr h l name'.
Proof.
  intros Hne. unfold getattr, store_attr.
  destruct (h !! x) as [o|] eqn:Hx; [|done].
  destruct (decide (l = x)) as [->|Hl].
  - rewrite lookup_insert_eq, Hx. simpl.
    rewrite lookup_insert_ne; [done|]. intros ->. by apply Hne.
  - by rewrite lookup_insert_ne.
Qed.

Lemma store_attr_lookup_ne h x name v l :
  l ≠ x -> store_attr h x name v !! l = h !! l.
Proof.
  intros Hne. unfold store_attr. destruct (h !! x); [|done].
  by rewrite lookup_insert_ne.
Qed.

Lemma store_attr_dom h x name v l :
  is_Some (store_attr h x name v !! l) <-> is_Some (h !! l).
Proof.
  unfold store_attr. destruct (h !! x) as [o|] eqn:Hx; [|done].
  destruct (decide (l = x)) as [->|Hne].
  - rewrite lookup_insert_eq, Hx. split; eauto.
  - by rewrite lookup_insert_ne.
Qed.

(** What an assignment does, case by case. *)
Lemma setattr_inv h x name v r h' :
  setattr h x name v = (r, h') ->
  (exists e, r = Err e /\ h' = h) \/
  (r = Ok () /\ accepts_assignment h x name /\ h' = store_attr h x name v).
Proof.
  unfold setattr. intros H.
  destruct (h !! x) as [o|] eqn:Hx.
  - destruct (assignment_error (obj_policy o) name) as [cls|] eqn:Hp.
    + left. inversion H. eauto.
    + right. inversion H. split; [done|]. split; [|done]. by exists o.
  - left. inversion H. eauto.
Qed.

Lemma setattr_accepted h x name v :
  accepts_assignment h x name ->
  setattr h x name v = (Ok (), store_attr h x name v).
Proof. intros (o & Hx & Hp). unfold setattr. by rewrite Hx, Hp. Qed.

Lemma accepts_assignment_live h x name :
  accepts_assignment h x name -> is_Some (h !! x).
Proof. intros (o & Hx & _). eauto. Qed.

Lemma accepts_assignment_store_attr h x name v y name' :
  accepts_assignment h y name' ->
  accepts_assignment (store_attr h x name v) y name'.
Proof.
  intros (o & Hy & Hp). unfold accepts_assignment, store_attr.
  destruct (h !! x) as [ox|] eqn:Hx; [|eauto].
  destruct (decide (y = x)) as [->|Hne].
  - rewrite lookup_insert_eq. eexists. split; [done|]. simpl.
    rewrite Hx in Hy. by injection Hy as ->.
  - rewrite lookup_insert_ne by done. eauto.
Qed.

(** What a call of [customize] does, case by case. *)
Lemma customize_inv self h r h' :
  customize self h = (r, h') ->
  (exists e, r = Err e /\ h' = h) \/
  (exists v apm,
      r = Ok () /\
      getattr h self "ENVIRONMENT" = Some v /\
      getattr h self "ELASTIC_APM" = Some (VRef apm) /\
      is_Some (h !! apm) /\
      h' = store_attr h apm "ENVIRONMENT" v).
Proof.
  unfold customize. intros H.
  destruct (getattr h self "ENVIRONMENT") as [v|] eqn:Hv.
  2:{ left. inversion H. eauto. }
  destruct (getattr h self "ELASTIC_APM") as [[s|apm]|] eqn:Ha.
  1,3: left; inversion H; eauto.
  apply setattr_inv in H as [(e & -> & ->)|(-> & Hacc & ->)].
  - left. eauto.
  - right. exists v, apm. split; [done|]. split; [done|]. split; [done|].
    split; [|done]. by eapply accepts_assignment_live.
Qed.

(** A successful call of [customize] wrote to an object that takes the
    assignment. *)
Lemma customize_ok_accepts self h h' :
  customize self h = (Ok (), h') ->
  exists apm, getattr h self "ELASTIC_APM" = Some (VRef apm) /\
              accepts_assignment h apm "ENVIRONMENT".
Proof.
  unfold customize. intros H.
  destruct (getattr h self "ENVIRONMENT") as [v|]; [|done].
  destruct (getattr h self "ELASTIC_APM") as [[s|apm]|]; [done| |done].
  apply setattr_inv in H as [(e & ? & _)|(_ & Hacc & _)]; [done|]. eauto.
Qed.

(* ===================================================================== *)
(** * The registry: what each call does to the two class attributes *)
(* ===================================================================== *)

Section registry_facts.
Context (E : class_env).

Lemma call_customize_registry config st r st1 :
  call_customize E config st = (r, st1) ->
  __global_config st1 = __global_config st /\
  __config_class_to_reload st1 = __config_class_to_reload st.
Proof.
  unfold call_customize. intros H.
  destruct (type_of (heap_of st) config ≫= customize_of E) as [f|].
  - destruct (f config (heap_of st)) as [r' h']. by inversion H.
  - by inversion H.
Qed.

Lemma set_global_ok_inv config st u st' :
  set_global E config st = (Ok u, st') ->
  exists st1, call_customize E config st = (Ok (), st1) /\
              st' = publish config st1.
Proof.
  unfold set_global. intros H.
  destruct (call_customize E config st) as [[[]|e] st1]; inversion H; eauto.
Qed.

Lemma set_global_err_inv config st e st' :
  set_global E config st = (Err e, st') ->
  call_customize E config st = (Err e, st').
Proof.
  unfold set_global. intros H.
  destruct (call_customize E config st) as [[[]|e'] st1]; by inversion H.
Qed.

Lemma set_global_err_registry config st e st' :
  set_global E config st = (Err e, st') ->
  __global_config st' = __global_config st /\
  __config_class_to_reload st' = __config_class_to_reload st.
Proof.
  intros H%set_global_err_inv. by apply call_customize_registry in H.
Qed.

Lemma set_global_ok_current config st u st' :
  set_global E config st = (Ok u, st') ->
  __global_config st' = Some config.
Proof. intros (st1 & _ & ->)%set_global_ok_inv. done. Qed.

Lemma reload_err_registry w st e st' :
  reload E w st = (Err e, st') ->
  __global_config st' = __global_config st /\
  __config_class_to_reload st' = __config_class_to_reload st.
Proof.
  unfold reload. intros H.
  destruct (__config_class_to_reload st) as [[c|l]|] eqn:Hc.
  - destruct (construct_of E c w (heap_of st)) as [[new|e'] h1].
    + apply set_global_err_registry in H. simpl in H.
      by rewrite Hc in H.
    + inversion H; subst. by simpl.
  - inversion H; subst. by rewrite Hc.
  - inversion H; subst. by rewrite Hc.
Qed.

Lemma reload_ok_current w st u st' :
  reload E w st = (Ok u, st') ->
  exists new, __global_config st' = Some new.
Proof.
  unfold reload. intros H.
  destruct (__config_class_to_reload st) as [[c|l]|]; [|by inversion H..].
  destruct (construct_of E c w (heap_of st)) as [[new|e'] h1];
    [|by inversion H].
  apply set_global_ok_current in H. eauto.
Qed.

(** A call that raises, or a read, leaves both attributes as they were; a
    [set_global] or [reload] that returns leaves an instance. *)
Lemma do_call_current c st ok st' :
  do_call E c st = (ok, st') ->
  if is_setter c && ok
  then is_Some (__global_config st')
  else __global_config st' = __global_config st /\
       __config_class_to_reload st' = __config_class_to_reload st.
Proof.
  destruct c as [config|w|]; simpl.
  - destruct (set_global E config st) as [[u|e] st1] eqn:Hs;
      intros [= <- <-]; simpl.
    + apply set_global_ok_current in Hs. eauto.
    + by apply set_global_err_registry in Hs.
  - destruct (reload E w st) as [[u|e] st1] eqn:Hs;
      intros [= <- <-]; simpl.
    + apply reload_ok_current in Hs as [new ->]. eauto.
    + by apply reload_err_registry in Hs.
  - unfold global_config.
    destruct (__global_config st) eqn:Hg; simpl; intros [= <- <-]; done.
Qed.

(** Once an instance is stored, every later state stores one. *)
Lemma do_call_keeps_current c st ok st' :
  do_call E c st = (ok, st') ->
  is_Some (__global_config st) -> is_Some (__global_config st').
Proof.
  intros H Hs. apply do_call_current in H.
  destruct (is_setter c && ok); [done|]. destruct H as [-> _]. done.
Qed.

Lemma run_calls_keeps_current cs st :
  is_Some (__global_config st) ->
  is_Some (__global_config (run_calls E cs st).2).
Proof.
  revert st. induction cs as [|c cs IH]; intros st Hs; [done|].
  simpl. destruct (do_call E c st) as [ok st1] eqn:Hc.
  specialize (IH st1 (do_call_keeps_current _ _ _ _ Hc Hs)).
  destruct (run_calls E cs st1) as [later st2]. done.
Qed.

(** A run in which no [set_global] or [reload] returned leaves both
    attributes as they were. *)
Lemma run_calls_no_success cs : forall st,
  (run_calls E cs st).1 = false ->
  __global_config (run_calls E cs st).2 = __global_config st /\
  __config_class_to_reload (run_calls E cs st).2 = __config_class_to_reload st.
Proof.
  induction cs as [|c cs IH]; intros st Hno; [done|]. simpl in *.
  destruct (do_call E c st) as [ok st1] eqn:Hc.
  pose proof (do_call_current _ _ _ _ Hc) as Hd. specialize (IH st1).
  destruct (run_calls E cs st1) as [later st2]. simpl in *.
  apply orb_false_iff in Hno as [Hok ->]. rewrite Hok in Hd.
  destruct (IH eq_refl) as [-> ->]. done.
Qed.
End registry_facts.

(* ===================================================================== *)
(** * The registry: [global_config], [set_global], [reload] *)
(* ===================================================================== *)

Lemma call_customize_hook E config st c f :
  type_of (heap_of st) config = Some c ->
  customize_of E c = Some f ->
  call_customize E config st =
    ((f config (heap_of st)).1,
     {| heap_of := (f config (heap_of st)).2;
        __global_config := __global_config st;
        __config_class_to_reload := __config_class_to_reload st;
        customize_calls := customize_calls st ++ [config] |}).
Proof.
  intros Ht Hf. unfold call_customize. rewrite Ht. simpl. rewrite Hf.
  by destruct (f config (heap_of st)).
Qed.

Lemma call_customize_err_hook E config st e st' :
  call_customize E config st = (Err e, st') ->
  exists c f, type_of (heap_of st) config = Some c /\
              customize_of E c = Some f /\
              (f config (heap_of st)).1 = Err e.
Proof.
  unfold call_customize.
  destruct (type_of (heap_of st) config) as [c|] eqn:Ht; simpl; [|done].
  destruct (customize_of E c) as [f|] eqn:Hf; [|done].
  destruct (f config (heap_of st)) as [r h'] eqn:Hr.
  intros [= -> <-]. exists c, f. by rewrite Hr.
Qed.

(** The default hook cannot raise on an instance that has the two
    attributes it uses and whose telemetry object takes the assignment. *)
Lemma customize_total self h v apm :
  getattr h self "ENVIRONMENT" = Some v ->
  getattr h self "ELASTIC_APM" = Some (VRef apm) ->
  accepts_assignment h apm "ENVIRONMENT" ->
  customize self h = (Ok (), store_attr h apm "ENVIRONMENT" v).
Proof.
  intros Hv Ha Hacc. unfold customize. rewrite Hv, Ha.
  by apply setattr_accepted.
Qed.

Lemma initial_state_placeholder (h : heap) :
  __global_config (initial_state h) = Some (fresh (dom h)) /\
  type_of (heap_of (initial_state h)) (fresh (dom h)) = Some "ModelPrivateAttr".
Proof.
  split; [done|]. unfold type_of. simpl.
  rewrite lookup_insert_ne.
  - by rewrite lookup_insert_eq.
  - intros Heq.
    apply (is_fresh (dom (<[fresh (dom h) := private_attr]> h))).
    rewrite Heq. rewrite dom_insert_L. set_solver.
Qed.

(** C3.  The code does not do what the claim and the docstring of
    [global_config] say.  A read of [__global_config] through the class is
    never [None]: a process that has registered nothing holds the
    placeholder of the private attribute, so [global_config()] does not
    raise there but returns the placeholder, an object of class
    [ModelPrivateAttr]; over every run of calls it returns normally, the
    state its guard tests for never being reached.  Once a
    [set_global(config)] has returned it returns [config]. *)
Theorem global_config_never_raises
    (E : class_env) (h : heap) (cs : list call) :
  (exists i,
     global_config (run_calls E cs (initial_state h)).2
     = (Ok i, (run_calls E cs (initial_state h)).2)) /\
  ~ unset (run_calls E cs (initial_state h)).2 /\
  ((run_calls E cs (initial_state h)).1 = false ->
   global_config (run_calls E cs (initial_state h)).2
   = (Ok (fresh (dom h)), (run_calls E cs (initial_state h)).2) /\
   type_of (heap_of (initial_state h)) (fresh (dom h))
   = Some "ModelPrivateAttr") /\
  (forall config st0 st1,
     set_global E config st0 = (Ok (), st1) ->
     global_config st1 = (Ok config, st1)).
Proof.
  destruct (initial_state_placeholder h) as [Hinit Hty].
  destruct (run_calls_keeps_current E cs (initial_state h)) as [i Hi].
  { rewrite Hinit. eauto. }
  split; [|split; [|split]].
  - exists i. unfold global_config. by rewrite Hi.
  - intros [Hnone _]. congruence.
  - intros Hno. split; [|done].
    destruct (run_calls_no_success E cs _ Hno) as [Hg _].
    unfold global_config. by rewrite Hg, Hinit.
  - intros config st0 st1 Hs.
    apply set_global_ok_current in Hs.
    unfold global_config. by rewrite Hs.
Qed.

(** C4.  The code does not do what the claim and the docstring of
    [reload] say.  In a process where no [set_global] has succeeded,
    [__config_class_to_reload] holds the placeholder of the private
    attribute, not [None]: [reload()] calls it and raises a [TypeError],
    which a handler for [RuntimeError] does not catch, and
    [global_config()] does not raise at all. *)
Theorem reload_before_set_raises_type_error
    (E : class_env) (h : heap) (cs : list call) (w : World) :
  (run_calls E cs (initial_state h)).1 = false ->
  exists e,
    reload E w (run_calls E cs (initial_state h)).2
    = (Err e, (run_calls E cs (initial_state h)).2) /\
    exn_cls e = TypeError /\
    except_catches RuntimeError e = false /\
    is_ok (global_config (run_calls E cs (initial_state h)).2).1 = true.
Proof.
  intros Hno.
  destruct (run_calls_no_success E cs _ Hno) as [Hg Hc].
  unfold reload, global_config. rewrite Hg, Hc. simpl.
  eexists. repeat split; done.
Qed.

(** C5, as the code has it.  When the hook of [config]'s class returns,
    [set_global(config)] has called it on [config], then stored [config]
    and [type(config)]; its outcome does not depend on what the registry
    held.  It raises only when the hook raises, and then it has stored
    nothing; with the default hook it cannot raise on an instance that has
    its [ENVIRONMENT] and whose [ELASTIC_APM] object takes the assignment;
    a later call that returns overwrites both attributes. *)
Theorem set_global_stores_instance_and_type
    (E : class_env) (config : loc) (st : pystate) :
  (forall c f h',
     type_of (heap_of st) config = Some c ->
     customize_of E c = Some f ->
     f config (heap_of st) = (Ok (), h') ->
     set_global E config st =
       (Ok (), {| heap_of := h';
                  __global_config := Some config;
                  __config_class_to_reload := ClassObject <$> type_of h' config;
                  customize_calls := customize_calls st ++ [config] |})) /\
  (forall e st',
     set_global E config st = (Err e, st') ->
     (exists c f, type_of (heap_of st) config = Some c /\
                  customize_of E c = Some f /\
                  (f config (heap_of st)).1 = Err e) /\
     __global_config st' = __global_config st /\
     __config_class_to_reload st' = __config_class_to_reload st) /\
  (forall c v apm,
     type_of (heap_of st) config = Some c ->
     customize_of E c = Some customize ->
     getattr (heap_of st) config "ENVIRONMENT" = Some v ->
     getattr (heap_of st) config "ELASTIC_APM" = Some (VRef apm) ->
     accepts_assignment (heap_of st) apm "ENVIRONMENT" ->
     exists st', set_global E config st = (Ok (), st') /\
                 __global_config st' = Some config /\
                 __config_class_to_reload st' = Some c) /\
  (forall st1 config2 st2,
     set_global E config st = (Ok (), st1) ->
     set_global E config2 st1 = (Ok (), st2) ->
     __global_config st2 = Some config2 /\
     __config_class_to_reload st2
     = ClassObject <$> type_of (heap_of st2) config2).
Proof.
  split; [|split; [|split]].
  - intros c f h' Ht Hf Hr. unfold set_global.
    rewrite (call_customize_hook E config st c f Ht Hf), Hr. done.
  - intros e st' Hs. split.
    + apply set_global_err_inv in Hs.
      by apply call_customize_err_hook in Hs.
    + by apply set_global_err_registry in Hs.
  - intros c v apm Ht Hf Hv Ha Hacc. unfold set_global.
    rewrite (call_customize_hook E config st c customize Ht Hf).
    rewrite (customize_total _ _ _ _ Hv Ha Hacc). simpl.
    eexists. split; [done|]. split; [done|]. simpl.
    by rewrite type_of_store_attr, Ht.
  - intros st1 config2 st2 _ (st' & _ & ->)%set_global_ok_inv. done.
Qed.

(** C2. With an instance [i] of class [c] registered, a [reload()] whose
    construction raises [e] raises [e] without assigning anything; and
    whatever makes [reload()] raise, the registry afterwards holds the same
    instance and class, and [global_config()] returns [i]. *)
Theorem reload_is_all_or_nothing
    (E : class_env) (w : World) (st : pystate) (i : loc) (c : string) :
  __global_config st = Some i ->
  __config_class_to_reload st = Some c ->
  (forall e h1,
     construct_of E c w (heap_of st) = (Err e, h1) ->
     reload E w st = (Err e, with_heap st h1)) /\
  (forall e st',
     reload E w st = (Err e, st') ->
     __global_config st' = Some i /\
     __config_class_to_reload st' = Some c /\
     global_config st' = (Ok i, st')).
Proof.
  intros Hi Hc. split.
  - intros e h1 Hk. unfold reload. by rewrite Hc, Hk.
  - intros e st' Hr. apply reload_err_registry in Hr as [Hg Ht].
    rewrite Hi in Hg. rewrite Hc in Ht.
    unfold global_config. by rewrite Hg.
Qed.

(** C7. With the default hook, a successful [set_global(config)] has
    invoked [customize] exactly once, on [config], while the registry still
    held what it held before; only then is [config] stored.  Afterwards the
    registered instance's [ELASTIC_APM.ENVIRONMENT] equals its
    [ENVIRONMENT], whatever the nested attribute was before.  A successful
    [reload()] likewise invokes the hook of the new instance exactly once,
    whatever hook its class has. *)
Theorem customize_runs_once_before_publication
    (E : class_env) (config : loc) (st st' : pystate) (c : string) :
  type_of (heap_of st) config = Some c ->
  customize_of E c = Some customize ->
  set_global E config st = (Ok (), st') ->
  customize_calls st' = (customize_calls st ++ [config])%list /\
  (exists st1,
     call_customize E config st = (Ok (), st1) /\
     __global_config st1 = __global_config st /\
     __config_class_to_reload st1 = __config_class_to_reload st /\
     st' = publish config st1) /\
  global_config st' = (Ok config, st') /\
  (exists apm v,
     getattr (heap_of st') config "ELASTIC_APM" = Some (VRef apm) /\
     getattr (heap_of st') config "ENVIRONMENT" = Some v /\
     getattr (heap_of st') apm "ENVIRONMENT" = Some v) /\
  (forall w st0 st0' (c0 : string) f,
     __config_class_to_reload st0 = Some c0 ->
     customize_of E c0 = Some f ->
     reload E w st0 = (Ok (), st0') ->
     exists new h1,
       construct_of E c0 w (heap_of st0) = (Ok new, h1) /\
       __global_config st0' = Some new /\
       (type_of h1 new = Some c0 ->
        customize_calls st0' = (customize_calls st0 ++ [new])%list)).
Proof.
  intros Ht Hf Hs.
  destruct (set_global_ok_inv _ _ _ _ _ Hs) as (st1 & Hc & ->).
  pose proof (call_customize_registry _ _ _ _ _ Hc) as [Hg Hcl].
  rewrite (call_customize_hook E config st c customize Ht Hf) in Hc.
  destruct (customize config (heap_of st)) as [r h'] eqn:Hr.
  simpl in Hc. injection Hc as -> <-. simpl.
  split; [done|]. split.
  { eexists. split; [|split; [|split]]; [|done|done|done].
    rewrite (call_customize_hook E config st c customize Ht Hf), Hr. done. }
  split; [done|]. split.
  - apply customize_inv in Hr as [(e & ? & _)|(v & apm & _ & Hv & Ha & Hl & ->)];
      [done|].
    exists apm, v. split; [|split].
    + rewrite getattr_store_attr_other; [done|]. by intros [= _].
    + destruct (decide (config = apm)) as [->|Hne].
      * by apply getattr_store_attr_same.
      * rewrite getattr_store_attr_other; [done|]. by intros [= ?].
    + by apply getattr_store_attr_same.
  - intros w st0 st0' c0 f Hc0 Hf0 Hre. unfold reload in Hre.
    rewrite Hc0 in Hre.
    destruct (construct_of E c0 w (heap_of st0)) as [[new|e] h1] eqn:Hk;
      [|done].
    exists new, h1. split; [done|].
    destruct (set_global_ok_inv _ _ _ _ _ Hre) as (st2 & Hc2 & ->).
    split; [done|]. intros Hty. simpl.
    rewrite (call_customize_hook E new (with_heap st0 h1) c0 f Hty Hf0) in Hc2.
    by injection Hc2 as _ <-.
Qed.

(* ===================================================================== *)
(** * The registry on the sample process *)
(* ===================================================================== *)

Lemma global_config_never_raises_witness :
  global_config
    (run_calls sample_classes [CallReload sample_world; CallGlobalConfig]
       (initial_state sample_built.2)).2
  = (Ok (fresh (dom sample_built.2)),
     (run_calls sample_classes [CallReload sample_world; CallGlobalConfig]
        (initial_state sample_built.2)).2) /\
  type_of (heap_of (initial_state sample_built.2)) (fresh (dom sample_built.2))
  = Some "ModelPrivateAttr".
Proof.
  destruct (global_config_never_raises sample_classes sample_built.2
              [CallReload sample_world; CallGlobalConfig]) as (_ & _ & H & _).
  apply H. vm_compute. reflexivity.
Defined.

Lemma reload_before_set_raises_type_error_witness :
  exists e,
    reload sample_classes sample_world
      (run_calls sample_classes [CallGlobalConfig; CallReload sample_world]
         (initial_state sample_built.2)).2
    = (Err e,
       (run_calls sample_classes [CallGlobalConfig; CallReload sample_world]
          (initial_state sample_built.2)).2) /\
    exn_cls e = TypeError /\
    except_catches RuntimeError e = false /\
    is_ok
      (global_config
         (run_calls sample_classes [CallGlobalConfig; CallReload sample_world]
            (initial_state sample_built.2)).2).1 = true.
Proof.
  apply (reload_before_set_raises_type_error sample_classes sample_built.2
           [CallGlobalConfig; CallReload sample_world] sample_world).
  vm_compute. reflexivity.
Defined.

Lemma set_global_stores_instance_and_type_witness :
  exists st',
    set_global sample_classes sample_instance sample_unset_state = (Ok (), st') /\
    __global_config st' = Some sample_instance /\
    __config_class_to_reload st' = Some "BaseConfig".
Proof.
  apply (set_global_stores_instance_and_type sample_classes sample_instance
           sample_unset_state)
    with (v := VScalar "PRODUCTION") (apm := 4%positive).
  - vm_compute. reflexivity.
  - reflexivity.
  - vm_compute. reflexivity.
  - vm_compute. reflexivity.
  - eexists. split; vm_compute; reflexivity.
Defined.

(** C5, as the spec words it, fails: [set_global] of a [StrictConfig],
    whose hook refuses the instance, raises and stores nothing. *)
Lemma set_never_fails_as_stated_fails : ~ set_never_fails_as_stated.
Proof.
  intros H.
  destruct (H strict_classes 100%positive strict_state "StrictConfig")
    as (st' & Hs & _).
  - vm_compute. reflexivity.
  - vm_compute in Hs. discriminate Hs.
Qed.

Lemma reload_is_all_or_nothing_witness :
  exists e st',
    reload sample_classes broken_world sample_set_state = (Err e, st') /\
    __global_config st' = Some sample_instance /\
    __config_class_to_reload st' = Some "BaseConfig" /\
    global_config st' = (Ok sample_instance, st').
Proof.
  pose proof (reload_is_all_or_nothing sample_classes broken_world
                sample_set_state sample_instance "BaseConfig") as H.
  destruct H as [_ H]; [vm_compute; reflexivity..|].
  exists (validation_error "value cannot be coerced"),
         (reload sample_classes broken_world sample_set_state).2.
  split; [vm_compute; reflexivity|].
  apply (H (validation_error "value cannot be coerced")).
  vm_compute. reflexivity.
Defined.

Lemma customize_runs_once_before_publication_witness :
  customize_calls sample_set_state = [sample_instance] /\
  exists apm v,
    getattr (heap_of sample_set_state) sample_instance "ELASTIC_APM"
      = Some (VRef apm) /\
    getattr (heap_of sample_set_state) sample_instance "ENVIRONMENT" = Some v /\
    getattr (heap_of sample_set_state) apm "ENVIRONMENT" = Some v.
Proof.
  pose proof (customize_runs_once_before_publication sample_classes
                sample_instance sample_unset_state sample_set_state
                "BaseConfig") as H.
  destruct H as (Hcalls & _ & _ & Hfield & _).
  - vm_compute. reflexivity.
  - reflexivity.
  - vm_compute. reflexivity.
  - split; [exact Hcalls | exact Hfield].
Defined.

(* ===================================================================== *)
(** * The materializer only allocates *)
(* ===================================================================== *)

(** Induction on schemas, the fields of a structure taken together. *)
Lemma Schema_nested_ind (P : Schema -> Prop) :
  (forall accepts default, P (SField accepts default)) ->
  (forall cname fields,
     Forall (fun fs : string * Schema => P fs.2) fields ->
     P (SStruct cname fields)) ->
  forall s, P s.
Proof.
  intros Hfield Hstruct. fix IH 1. intros [accepts default|cname fields].
  - apply Hfield.
  - apply Hstruct. induction fields as [|[f sf] fields IHf]; constructor.
    + apply IH.
    + apply IHf.
Qed.

Lemma extends_refl h : extends h h.
Proof. by intros l o. Qed.

Lemma extends_trans h1 h2 h3 : extends h1 h2 -> extends h2 h3 -> extends h1 h3.
Proof. intros H12 H23 l o Hl. by apply H23, H12. Qed.

Lemma extends_fresh h h' l : extends h h' -> h' !! l = None -> h !! l = None.
Proof.
  intros He Hn. destruct (h !! l) as [o|] eqn:Hl; [|done].
  apply He in Hl. congruence.
Qed.

Lemma extends_alloc (h : heap) o : extends h (<[fresh (dom h) := o]> h).
Proof.
  intros l o' Hl. rewrite lookup_insert_ne; [done|].
  intros <-. apply (is_fresh (dom h)). apply elem_of_dom. eauto.
Qed.

Lemma fresh_not_live (h : heap) : h !! fresh (dom h) = None.
Proof. apply not_elem_of_dom, is_fresh. Qed.

Lemma bind_fields_only_allocates ks fields :
  Forall (fun fs : string * Schema => only_allocates fs.2) fields ->
  forall (h : heap) d r h',
    bind_fields materialize ks fields h d = (r, h') ->
    extends h h' /\
    forall d', r = Ok d' ->
      forall name a, d' !! name = Some (VRef a) ->
        d !! name = Some (VRef a) \/ h !! a = None.
Proof.
  induction 1 as [|[f sf] fields Hsf _ IH]; intros h d r h' Hb; simpl in Hb.
  - injection Hb as <- <-. split; [apply extends_refl|].
    intros d' [= <-] name a Hd. by left.
  - destruct (materialize sf (ks !! f) h) as [[v|e] h1] eqn:Hm.
    + destruct (Hsf _ _ _ _ Hm) as [He1 Hfresh1].
      destruct (IH _ _ _ _ Hb) as [He2 Hrefs]. split.
      * by eapply extends_trans.
      * intros d' -> name a Hd.
        destruct (Hrefs d' eq_refl name a Hd) as [Hin|Hn].
        -- destruct (decide (f = name)) as [->|Hne].
           ++ rewrite lookup_insert_eq in Hin. injection Hin as ->.
              right. by apply Hfresh1.
           ++ rewrite lookup_insert_ne in Hin by done. by left.
        -- right. by eapply extends_fresh.
    + injection Hb as <- <-. simpl in Hsf.
      destruct (Hsf _ _ _ _ Hm) as [He1 _]. split; [done|]. done.
Qed.

Lemma materialize_only_allocates s : only_allocates s.
Proof.
  induction s as [accepts default|cname fields IH] using Schema_nested_ind;
    intros t h r h' Hm; simpl in Hm.
  - assert (h' = h /\ forall l, r <> Ok (VRef l)) as [-> Hr].
    { destruct t as [[v|ks]|]; [destruct (accepts v)| |destruct default];
        injection Hm as <- <-; done. }
    split; [apply extends_refl|]. intros l ->. by destruct (Hr l).
  - set (ks := match t with Some (Node ks) => ks | _ => ∅ end) in *.
    assert (match bind_fields materialize ks fields h ∅ with
            | (Ok d, h1) =>
                (Ok (VRef (fresh (dom h1))),
                 <[fresh (dom h1) :=
                   Obj cname d (DeclaredOnly (map fst fields) ValueError)]> h1)
            | (Err e, h1) => (Err e, h1)
            end = (r, h') \/ (h' = h /\ exists e, r = Err e)) as [Hb|[-> [e ->]]].
    { destruct t as [[v|ks']|]; [right|left|left]; [|done..].
      injection Hm as <- <-. eauto. }
    2:{ split; [apply extends_refl|done]. }
    destruct (bind_fields materialize ks fields h ∅) as [[d|e] h1] eqn:Hbf.
    + destruct (bind_fields_only_allocates ks fields IH _ _ _ _ Hbf) as [He _].
      injection Hb as <- <-. split.
      * eapply extends_trans; [done|]. apply extends_alloc.
      * intros l [= <-]. eapply extends_fresh; [done|]. apply fresh_not_live.
    + destruct (bind_fields_only_allocates ks fields IH _ _ _ _ Hbf) as [He _].
      injection Hb as <- <-. done.
Qed.

(** A materialized structure is a new object of the schema's class, and
    the objects its attributes refer to are new as well. *)
Lemma materialize_struct_fresh cname fields t (h : heap) l h' :
  materialize (SStruct cname fields) t h = (Ok (VRef l), h') ->
  h !! l = None /\
  type_of h' l = Some cname /\
  forall name a, getattr h' l name = Some (VRef a) -> h !! a = None.
Proof.
  intros Hm.
  pose proof (materialize_only_allocates _ _ _ _ _ Hm) as [_ Hl].
  split; [by apply Hl|]. simpl in Hm.
  set (ks := match t with Some (Node ks) => ks | _ => ∅ end) in *.
  assert (match bind_fields materialize ks fields h ∅ with
          | (Ok d, h1) =>
              (Ok (VRef (fresh (dom h1))),
               <[fresh (dom h1) :=
                   Obj cname d (DeclaredOnly (map fst fields) ValueError)]> h1)
          | (Err e, h1) => (Err e, h1)
          end = (Ok (VRef l), h')) as Hb.
  { destruct t as [[v|ks']|]; done. }
  destruct (bind_fields materialize ks fields h ∅) as [[d|e] h1] eqn:Hbf;
    [|done].
  injection Hb as <- <-.
  assert (Forall (fun fs : string * Schema => only_allocates fs.2) fields) as Hall.
  { apply Forall_forall. intros fs _. apply materialize_only_allocates. }
  destruct (bind_fields_only_allocates ks fields Hall _ _ _ _ Hbf) as [_ Hrefs].
  unfold type_of, getattr. rewrite lookup_insert_eq. simpl. split; [done|].
  intros name a Hd. destruct (Hrefs d eq_refl name a Hd) as [Hin|Hn]; [|done].
  by rewrite lookup_empty in Hin.
Qed.

Lemma BaseSettings_init_fresh cname fields w (h : heap) r h' :
  BaseSettings_init cname (SStruct cname fields) w h = (r, h') ->
  extends h h' /\
  forall new, r = Ok new ->
    h !! new = None /\
    type_of h' new = Some cname /\
    forall name a, getattr h' new name = Some (VRef a) -> h !! a = None.
Proof.
  unfold BaseSettings_init. intros Hi.
  destruct (materialize (SStruct cname fields)
              (Some (build_values model_config cname w)) h)
    as [[[s|l]|e] h1] eqn:Hm; injection Hi as <- <-;
    pose proof (materialize_only_allocates _ _ _ _ _ Hm) as [He _];
    (split; [done|]); intros new [= <-].
  by apply materialize_struct_fresh in Hm.
Qed.

(** The classes of a program that uses [BaseConfig] as it is construct
    fresh instances. *)
Lemma base_classes_construct_fresh I : constructs_fresh (base_classes I).
Proof.
  intros c w h r h' Hk. simpl in Hk.
  destruct (String.eqb c "BaseConfig") eqn:Hc.
  - apply String.eqb_eq in Hc as ->.
    by apply BaseSettings_init_fresh in Hk.
  - injection Hk as <- <-. split; [by intros l o|done].
Qed.

(** C6. With an instance [i] registered under class [c], a class that
    uses the default hook and constructors that only allocate, a successful
    [reload()] is [c()] followed by [set_global] of the new instance: the
    hook ran once, on it; the registry holds the new instance, which is not
    [i] and has class [c]; the bound class is still [c]; and every object
    that existed before the call, [i] among them, is exactly as it was. *)
Theorem reload_builds_fresh_instance
    (E : class_env) (w : World) (st st' : pystate) (i : loc) (c : string) :
  constructs_fresh E ->
  __global_config st = Some i ->
  is_Some (heap_of st !! i) ->
  __config_class_to_reload st = Some c ->
  customize_of E c = Some customize ->
  reload E w st = (Ok (), st') ->
  exists new h1,
    construct_of E c w (heap_of st) = (Ok new, h1) /\
    reload E w st = set_global E new (with_heap st h1) /\
    __global_config st' = Some new /\
    new <> i /\
    __config_class_to_reload st' = Some c /\
    type_of (heap_of st') new = Some c /\
    customize_calls st' = (customize_calls st ++ [new])%list /\
    (forall l o, heap_of st !! l = Some o -> heap_of st' !! l = Some o).
Proof.
  intros Hfresh Hi [oi Hlive] Hc Hhook Hre.
  pose proof Hre as Hre'. unfold reload in Hre'. rewrite Hc in Hre'.
  destruct (construct_of E c w (heap_of st)) as [[new|e] h1] eqn:Hk; [|done].
  destruct (Hfresh _ _ _ _ _ Hk) as [Hext Hnew].
  destruct (Hnew new eq_refl) as (Hnone & Hty & Hrefs).
  exists new, h1. split; [done|]. split.
  { unfold reload. by rewrite Hc, Hk. }
  destruct (set_global_ok_inv _ _ _ _ _ Hre') as (st1 & Hcall & ->).
  rewrite (call_customize_hook E new (with_heap st h1) c customize Hty Hhook)
    in Hcall. simpl in Hcall.
  destruct (customize new h1) as [r h2] eqn:Hcust. simpl in Hcall.
  injection Hcall as -> <-. simpl.
  apply customize_inv in Hcust
    as [(e & ? & _)|(v & apm & _ & Hv & Ha & Hl & ->)]; [done|].
  split; [done|]. split; [congruence|].
  rewrite type_of_store_attr, Hty.
  split; [done|]. split; [done|]. split; [done|].
  intros l o Hlo. rewrite store_attr_lookup_ne.
  - by apply Hext.
  - intros ->. apply Hrefs in Ha. congruence.
Qed.

Lemma reload_builds_fresh_instance_witness :
  exists new h1,
    construct_of sample_classes "BaseConfig" mixed_world
      (heap_of sample_set_state) = (Ok new, h1) /\
    reload sample_classes mixed_world sample_set_state
      = set_global sample_classes new (with_heap sample_set_state h1) /\
    __global_config (reload sample_classes mixed_world sample_set_state).2
      = Some new /\
    new <> sample_instance /\
    __config_class_to_reload
      (reload sample_classes mixed_world sample_set_state).2
      = Some "BaseConfig" /\
    type_of (heap_of (reload sample_classes mixed_world sample_set_state).2) new
      = Some "BaseConfig" /\
    customize_calls (reload sample_classes mixed_world sample_set_state).2
      = (customize_calls sample_set_state ++ [new])%list /\
    (forall l o,
       heap_of sample_set_state !! l = Some o ->
       heap_of (reload sample_classes mixed_world sample_set_state).2 !! l
         = Some o).
Proof.
  apply (reload_builds_fresh_instance sample_classes mixed_world
           sample_set_state _ sample_instance "BaseConfig").
  - apply base_classes_construct_fresh.
  - vm_compute. reflexivity.
  - vm_compute. eauto.
  - vm_compute. reflexivity.
  - reflexivity.
  - vm_compute. reflexivity.
Defined.

(* ===================================================================== *)
(** * The default hook *)
(* ===================================================================== *)

Lemma store_attr_id_iff (h : heap) x name v :
  is_Some (h !! x) ->
  store_attr h x name v = h <-> getattr h x name = Some v.
Proof.
  intros Hlive. split.
  - intros Heq. rewrite <- Heq. by apply getattr_store_attr_same.
  - destruct Hlive as [[cls d] Hx]. unfold getattr, store_attr.
    rewrite Hx. simpl. intros Hd.
    rewrite (insert_id d name v Hd). by apply insert_id.
Qed.

(** C8, as the code has it.  [BaseConfig.customize] is not a no-op: when it
    returns it has set [self.ELASTIC_APM.ENVIRONMENT] to [self.ENVIRONMENT].
    It changes no class and no other attribute of any object, and leaves
    the heap as it was exactly when the nested attribute already had that
    value; when it raises it has changed nothing. *)
Theorem customize_copies_environment
    (self : loc) (h : heap) (r : outcome unit) (h' : heap) :
  customize self h = (r, h') ->
  (forall l, type_of h' l = type_of h l) /\
  (forall l name,
     getattr h self "ELASTIC_APM" <> Some (VRef l) \/ name <> "ENVIRONMENT" ->
     getattr h' l name = getattr h l name) /\
  (forall e, r = Err e -> h' = h) /\
  (r = Ok () ->
   exists v apm,
     getattr h self "ENVIRONMENT" = Some v /\
     getattr h self "ELASTIC_APM" = Some (VRef apm) /\
     getattr h' apm "ENVIRONMENT" = Some v /\
     (h' = h <-> getattr h apm "ENVIRONMENT" = Some v)).
Proof.
  intros Hc.
  apply customize_inv in Hc
    as [(e & -> & ->)|(v & apm & -> & Hv & Ha & Hl & ->)].
  - repeat split; try done.
  - split; [intros l; apply type_of_store_attr|]. split.
    { intros l name Hor. apply getattr_store_attr_other.
      intros [= -> ->]. destruct Hor as [Hne|Hne]; by apply Hne. }
    split; [done|]. intros _. exists v, apm.
    split; [done|]. split; [done|]. split.
    + by apply getattr_store_attr_same.
    + by apply store_attr_id_iff.
Qed.

Lemma customize_copies_environment_witness :
  exists v apm,
    getattr mixed_built.2 21%positive "ENVIRONMENT" = Some v /\
    getattr mixed_built.2 21%positive "ELASTIC_APM" = Some (VRef apm) /\
    getattr (customize 21%positive mixed_built.2).2 apm "ENVIRONMENT" = Some v /\
    ((customize 21%positive mixed_built.2).2 = mixed_built.2 <->
     getattr mixed_built.2 apm "ENVIRONMENT" = Some v).
Proof.
  apply (customize_copies_environment 21%positive mixed_built.2 (Ok ())
           (customize 21%positive mixed_built.2).2).
  - vm_compute. reflexivity.
  - reflexivity.
Defined.

(** C8, as the spec words it, fails: in the mixed world the freshly built
    instance has [ELASTIC_APM.ENVIRONMENT = "LOCAL"], from the local env
    file, and the default hook replaces it by ["PRODUCTION"]. *)
Lemma customize_is_not_a_noop : ~ default_hook_is_noop sample_imports.
Proof.
  intros Hnoop.
  destruct (Hnoop mixed_world ∅ 21%positive mixed_built.2) with (name := "ENVIRONMENT")
    as [_ Hsub].
  { vm_compute. reflexivity. }
  specialize (Hsub "ELASTIC_APM" 4%positive).
  vm_compute in Hsub. specialize (Hsub eq_refl). discriminate Hsub.
Qed.

(* ===================================================================== *)
(** * The precedence merger: lookups after an insertion *)
(* ===================================================================== *)

Lemma deep_update_None V : deep_update V None = V.
Proof. by destruct V. Qed.

Lemma deep_update_node us ts :
  deep_update (Node us) (Some (Node ts)) =
  Node (merge (fun ov ot =>
                 match ov with
                 | Some v => Some (deep_update v ot)
                 | None => ot
                 end) us ts).
Proof. reflexivity. Qed.

Lemma lookup_path_cons_opt k K ot :
  ot ≫= lookup_path (k :: K) = child k ot ≫= lookup_path K.
Proof.
  destruct ot as [[s|ts]|]; simpl; [done| |done]. by destruct (ts !! k).
Qed.

(** One step of a lookup in an updated tree. *)
Lemma lookup_path_deep_update_cons k K us ot :
  lookup_path (k :: K) (deep_update (Node us) ot) =
  match us !! k with
  | Some u => lookup_path K (deep_update u (child k ot))
  | None => child k ot ≫= lookup_path K
  end.
Proof.
  destruct ot as [[s|ts]|].
  - simpl. destruct (us !! k) as [u|]; [|done]. by rewrite deep_update_None.
  - rewrite deep_update_node. simpl. rewrite lookup_merge. unfold diag_None.
    destruct (us !! k) as [u|], (ts !! k) as [c|]; simpl; done.
  - simpl. destruct (us !! k) as [u|]; [|done]. by rewrite deep_update_None.
Qed.

(** A scalar the update holds at [K] is what the result holds at [K]. *)
Lemma deep_update_overrides K : forall U ot v,
  lookup_path K U = Some (Scalar v) ->
  lookup_path K (deep_update U ot) = Some (Scalar v).
Proof.
  induction K as [|k K IH]; intros U ot v HU.
  - injection HU as ->. done.
  - destruct U as [s|us]; [done|]. rewrite lookup_path_deep_update_cons.
    simpl in HU. destruct (us !! k) as [u|]; [|done]. by apply IH.
Qed.

(** An update that is silent on [K] leaves the value at [K] alone. *)
Lemma deep_update_silent K : forall U ot,
  silent_on K U = true ->
  lookup_path K (deep_update U ot) = ot ≫= lookup_path K.
Proof.
  induction K as [|k K IH]; intros U ot HU; [done|].
  destruct U as [s|us]; [done|].
  rewrite lookup_path_deep_update_cons, lookup_path_cons_opt.
  simpl in HU. destruct (us !! k) as [u|]; [|done]. by apply IH.
Qed.

Lemma leaves_kept_child k ot ot' :
  leaves_kept ot ot' -> leaves_kept (child k ot) (child k ot').
Proof.
  intros H P v. rewrite <- !lookup_path_cons_opt. apply H.
Qed.

(** Updating two trees alike keeps the one's leaves in the other. *)
Lemma deep_update_leaves_kept P : forall U ot ot' v,
  leaves_kept ot ot' ->
  lookup_path P (deep_update U ot) = Some (Scalar v) ->
  lookup_path P (deep_update U ot') = Some (Scalar v).
Proof.
  induction P as [|k P IH]; intros U ot ot' v Hk HU.
  - destruct U as [s|us]; [done|]. by destruct ot as [[?|?]|].
  - destruct U as [s|us]; [done|].
    rewrite lookup_path_deep_update_cons in HU |- *.
    destruct (us !! k) as [u|].
    + eapply IH; [|done]. by apply leaves_kept_child.
    + rewrite <- lookup_path_cons_opt in HU |- *. by apply Hk.
Qed.

(** Inserting an entry is updating with the nested object it stands for. *)
Lemma insert_at_nest p : forall V t,
  insert_at p V t = deep_update (nest p V) t.
Proof.
  induction p as [|k p IH]; intros V t; [done|]. simpl.
  destruct t as [[s|ts]|].
  - by rewrite lookup_empty, IH, deep_update_None, insert_empty.
  - f_equal. apply map_eq. intros j.
    rewrite lookup_merge. unfold diag_None.
    destruct (decide (k = j)) as [->|Hne].
    + rewrite lookup_insert_eq, lookup_singleton_eq, IH.
      by destruct (ts !! j).
    + rewrite lookup_insert_ne, lookup_singleton_ne by done.
      by destruct (ts !! j).
  - by rewrite lookup_empty, IH, deep_update_None, insert_empty.
Qed.

Lemma insert_entry_nest t e :
  insert_entry t e = deep_update (nest e.1 e.2) (Some t).
Proof. apply insert_at_nest. Qed.

Lemma insert_source_silent K s : forall t,
  source_silent_on K s = true ->
  lookup_path K (insert_source s t) = lookup_path K t.
Proof.
  induction s as [|e s IH]; intros t Hs; [done|].
  simpl in Hs. apply andb_prop in Hs as [He Hs].
  unfold insert_source. simpl. fold (insert_source s (insert_entry t e)).
  rewrite IH by done. rewrite insert_entry_nest.
  by rewrite deep_update_silent.
Qed.

Lemma insert_source_leaves_kept s : forall t t',
  leaves_kept (Some t) (Some t') ->
  leaves_kept (Some (insert_source s t)) (Some (insert_source s t')).
Proof.
  induction s as [|e s IH]; intros t t' Hk; [done|].
  unfold insert_source. simpl.
  fold (insert_source s (insert_entry t e)).
  fold (insert_source s (insert_entry t' e)).
  apply IH. rewrite !insert_entry_nest. intros P v. simpl.
  by apply deep_update_leaves_kept.
Qed.

Lemma leaves_kept_empty t : leaves_kept (Some empty_tree) (Some t).
Proof. intros [|k P] v; simpl; [done|]. by rewrite lookup_empty. Qed.

(** A source's own scalars survive whatever lay below. *)
Lemma insert_source_overrides s K v t :
  source_value s K = Some (Scalar v) ->
  lookup_path K (insert_source s t) = Some (Scalar v).
Proof.
  intros Hs.
  apply (insert_source_leaves_kept s empty_tree t (leaves_kept_empty t) K v Hs).
Qed.

Lemma merge_sources_silent_prefix K hi rest :
  Forall (fun s => source_silent_on K s = true) hi ->
  lookup_path K (merge_sources (hi ++ rest)) = lookup_path K (merge_sources rest).
Proof.
  induction 1 as [|s hi Hs _ IH]; [done|]. simpl.
  by rewrite insert_source_silent.
Qed.

(** The merger's precedence rule: the scalar a source defines at [K] is
    the merged value when the sources above it are silent on [K], whatever
    the sources below hold. *)
Lemma merge_sources_highest_definer K v hi s lo :
  Forall (fun s' => source_silent_on K s' = true) hi ->
  source_value s K = Some (Scalar v) ->
  lookup_path K (merge_sources (hi ++ s :: lo)) = Some (Scalar v).
Proof.
  intros Hhi Hs. rewrite merge_sources_silent_prefix by done.
  simpl. by apply insert_source_overrides.
Qed.

(* ===================================================================== *)
(** * The six sources in order *)
(* ===================================================================== *)

Lemma build_values_unfold cfg cls w :
  build_values cfg cls w =
  merge_sources
    [ secrets_files w; pyproject_toml w; toml_file w;
      env_entries cfg (os_environ w); env_entries cfg (dotenv_file w);
      init_kwargs w ].
Proof. reflexivity. Qed.

Lemma sources_of_cases cls s :
  s ∈ sources_of cls ->
  s = SecretsSettingsSource \/
  s = PyprojectTomlConfigSettingsSource cls \/
  s = TomlConfigSettingsSource cls \/
  s = EnvSettingsSource \/
  s = DotEnvSettingsSource \/
  s = InitSettingsSource.
Proof.
  unfold sources_of, settings_customise_sources.
  rewrite !elem_of_cons, elem_of_nil. tauto.
Qed.

Lemma sources_of_elem cls :
  SecretsSettingsSource ∈ sources_of cls /\
  PyprojectTomlConfigSettingsSource cls ∈ sources_of cls /\
  TomlConfigSettingsSource cls ∈ sources_of cls /\
  EnvSettingsSource ∈ sources_of cls /\
  DotEnvSettingsSource ∈ sources_of cls /\
  InitSettingsSource ∈ sources_of cls.
Proof.
  unfold sources_of, settings_customise_sources.
  rewrite !elem_of_cons. tauto.
Qed.

(** C1, as the code and the merger have it.  The list
    [settings_customise_sources] returns is the six tiers, highest first.
    The scalar a source defines at key path [K] is the merged value at [K]
    whenever every source of higher precedence is silent on [K] (has no
    entry at [K], below [K], or at a prefix of [K] that would replace the
    subtree); what the sources of lower precedence hold does not matter. *)
Theorem highest_defining_source_wins
    (cls : string) (w : World) (K : list string) (v : string)
    (s : PydanticBaseSettingsSource) :
  s ∈ sources_of cls ->
  source_value (fetch model_config w s) K = Some (Scalar v) ->
  (forall s', s' ∈ sources_of cls ->
     tier_rank (tier_of s') < tier_rank (tier_of s) ->
     source_silent_on K (fetch model_config w s') = true) ->
  lookup_path K (build_values model_config cls w) = Some (Scalar v) /\
  map tier_of (sources_of cls) =
    [ SecretFiles; ProjectManifest; DedicatedConfigFile;
      OsEnvironment; LocalEnvFile; SchemaDefaults ] /\
  map (fun s' => tier_rank (tier_of s')) (sources_of cls) = [1; 2; 3; 4; 5; 6].
Proof.
  intros Hin Hdef Hsilent. split; [|done].
  rewrite build_values_unfold.
  destruct (sources_of_elem cls) as (H1 & H2 & H3 & H4 & H5 & H6).
  pose proof (fun s' Hs' Hr => Hsilent s' Hs' Hr) as Hs.
  apply sources_of_cases in Hin
    as [-> | [-> | [-> | [-> | [-> | ->]]]]]; simpl in Hs, Hdef.
  - by apply (merge_sources_highest_definer K v []).
  - apply (merge_sources_highest_definer K v [secrets_files w]); [|done].
    repeat constructor. apply (Hs SecretsSettingsSource); [done|simpl; lia].
  - apply (merge_sources_highest_definer K v
             [secrets_files w; pyproject_toml w]); [|done].
    repeat constructor.
    + apply (Hs SecretsSettingsSource); [done|simpl; lia].
    + apply (Hs (PyprojectTomlConfigSettingsSource cls)); [done|simpl; lia].
  - apply (merge_sources_highest_definer K v
             [secrets_files w; pyproject_toml w; toml_file w]); [|done].
    repeat constructor.
    + apply (Hs SecretsSettingsSource); [done|simpl; lia].
    + apply (Hs (PyprojectTomlConfigSettingsSource cls)); [done|simpl; lia].
    + apply (Hs (TomlConfigSettingsSource cls)); [done|simpl; lia].
  - apply (merge_sources_highest_definer K v
             [secrets_files w; pyproject_toml w; toml_file w;
              env_entries model_config (os_environ w)]); [|done].
    repeat constructor.
    + apply (Hs SecretsSettingsSource); [done|simpl; lia].
    + apply (Hs (PyprojectTomlConfigSettingsSource cls)); [done|simpl; lia].
    + apply (Hs (TomlConfigSettingsSource cls)); [done|simpl; lia].
    + apply (Hs EnvSettingsSource); [done|simpl; lia].
  - apply (merge_sources_highest_definer K v
             [secrets_files w; pyproject_toml w; toml_file w;
              env_entries model_config (os_environ w);
              env_entries model_config (dotenv_file w)]); [|done].
    repeat constructor.
    + apply (Hs SecretsSettingsSource); [done|simpl; lia].
    + apply (Hs (PyprojectTomlConfigSettingsSource cls)); [done|simpl; lia].
    + apply (Hs (TomlConfigSettingsSource cls)); [done|simpl; lia].
    + apply (Hs EnvSettingsSource); [done|simpl; lia].
    + apply (Hs DotEnvSettingsSource); [done|simpl; lia].
Qed.

(** In the contested world the operating-system environment, the local
    env file and the constructor arguments each define
    [ELASTIC_APM.ENVIRONMENT]; the three sources above hold other keys, the
    manifest one under [ELASTIC_APM] itself; the merged tree has the value
    of the operating-system environment. *)
Lemma highest_defining_source_wins_witness :
  source_value (fetch model_config contested_world DotEnvSettingsSource)
    ["ELASTIC_APM"; "ENVIRONMENT"] = Some (Scalar "DEV") /\
  source_value (fetch model_config contested_world InitSettingsSource)
    ["ELASTIC_APM"; "ENVIRONMENT"] = Some (Scalar "TEST") /\
  lookup_path ["ELASTIC_APM"; "SERVICE_NAME"]
    (build_values model_config "BaseConfig" contested_world)
    = Some (Scalar "billing") /\
  lookup_path ["ELASTIC_APM"; "ENVIRONMENT"]
    (build_values model_config "BaseConfig" contested_world)
    = Some (Scalar "STAGING") /\
  map tier_of (sources_of "BaseConfig") =
    [ SecretFiles; ProjectManifest; DedicatedConfigFile;
      OsEnvironment; LocalEnvFile; SchemaDefaults ] /\
  map (fun s' => tier_rank (tier_of s')) (sources_of "BaseConfig")
    = [1; 2; 3; 4; 5; 6].
Proof.
  split; [vm_compute; reflexivity|].
  split; [vm_compute; reflexivity|].
  split; [vm_compute; reflexivity|].
  apply (highest_defining_source_wins "BaseConfig" contested_world
           ["ELASTIC_APM"; "ENVIRONMENT"] "STAGING" EnvSettingsSource).
  - apply sources_of_elem.
  - vm_compute. reflexivity.
  - intros s' Hin Hr.
    apply sources_of_cases in Hin as [-> | [-> | [-> | [-> | [-> | ->]]]]];
      first [ simpl in Hr; lia | vm_compute; reflexivity ].
Defined.

(** C1, as the spec words it, fails: in the shadowed world both
    environment-style sources define [ELASTIC_APM.SERVICE_NAME] and no
    higher source defines that path, yet the merged tree has nothing there,
    because the manifest's scalar at [ELASTIC_APM] replaced the subtree. *)
Lemma precedence_as_stated_fails : ~ precedence_as_stated.
Proof.
  intros H.
  specialize (H "BaseConfig" shadowed_world ["ELASTIC_APM"; "SERVICE_NAME"]
                EnvSettingsSource DotEnvSettingsSource "billing" "ledger").
  destruct (sources_of_elem "BaseConfig") as (_ & _ & _ & H4 & H5 & _).
  specialize (H H4 H5).
  assert (lookup_path ["ELASTIC_APM"; "SERVICE_NAME"]
            (build_values model_config "BaseConfig" shadowed_world) = None)
    as Hnone by (vm_compute; reflexivity).
  rewrite Hnone in H. discriminate H.
  - simpl. lia.
  - vm_compute. reflexivity.
  - vm_compute. reflexivity.
  - intros s' Hin Hr.
    apply sources_of_cases in Hin as [-> | [-> | [-> | [-> | [-> | ->]]]]];
      first [ by vm_compute | simpl in Hr; lia ].
Qed.

(* ===================================================================== *)
(** * Empty values in environment-style sources *)
(* ===================================================================== *)

Lemma parse_env_vars_drops_empty k pre post :
  parse_env_vars model_config (pre ++ (k, "") :: post) =
  parse_env_vars model_config (pre ++ post).
Proof.
  unfold parse_env_vars. by rewrite !List.filter_app.
Qed.

Lemma env_entries_drops_empty k pre post :
  env_entries model_config (pre ++ (k, "") :: post) =
  env_entries model_config (pre ++ post).
Proof. unfold env_entries. by rewrite parse_env_vars_drops_empty. Qed.

(** C10. Under [model_config] ([env_ignore_empty=True]) a variable with an
    empty value, in the operating-system environment or in the local env
    file, contributes nothing: the provider's entries, the merged tree, the
    value resolved at every key path and the instance built are those of
    the same world without the variable. *)
Theorem empty_env_value_is_absent
    (cls : string) (w : World) (k : string) (pre post : list (string * string)) :
  env_entries model_config (pre ++ (k, "") :: post)
    = env_entries model_config (pre ++ post) /\
  build_values model_config cls (with_os_environ w (pre ++ (k, "") :: post))
    = build_values model_config cls (with_os_environ w (pre ++ post)) /\
  build_values model_config cls (with_dotenv_file w (pre ++ (k, "") :: post))
    = build_values model_config cls (with_dotenv_file w (pre ++ post)) /\
  (forall K,
     lookup_path K
       (build_values model_config cls (with_os_environ w (pre ++ (k, "") :: post)))
     = lookup_path K
         (build_values model_config cls (with_os_environ w (pre ++ post)))) /\
  (forall s (h : heap),
     BaseSettings_init cls s (with_os_environ w (pre ++ (k, "") :: post)) h
     = BaseSettings_init cls s (with_os_environ w (pre ++ post)) h) /\
  (forall s (h : heap),
     BaseSettings_init cls s (with_dotenv_file w (pre ++ (k, "") :: post)) h
     = BaseSettings_init cls s (with_dotenv_file w (pre ++ post)) h).
Proof.
  assert (build_values model_config cls
            (with_os_environ w (pre ++ (k, "") :: post))
          = build_values model_config cls (with_os_environ w (pre ++ post)))
    as Hos.
  { rewrite !build_values_unfold. simpl.
    by rewrite env_entries_drops_empty. }
  assert (build_values model_config cls
            (with_dotenv_file w (pre ++ (k, "") :: post))
          = build_values model_config cls (with_dotenv_file w (pre ++ post)))
    as Hdot.
  { rewrite !build_values_unfold. simpl.
    by rewrite env_entries_drops_empty. }
  split; [apply env_entries_drops_empty|].
  split; [done|]. split; [done|].
  split; [by intros K; rewrite Hos|].
  split; intros s h; unfold BaseSettings_init; by rewrite ?Hos, ?Hdot.
Qed.

(* ===================================================================== *)
(** * Flat keys and the nesting delimiter *)
(* ===================================================================== *)

Lemma append_cons c (s t : string) : String c s +:+ t = String c (s +:+ t).
Proof. reflexivity. Qed.

Lemma append_nil_l (t : string) : "" +:+ t = t.
Proof. reflexivity. Qed.

Lemma append_nil_r (s : string) : s +:+ "" = s.
Proof.
  induction s as [|c s IH]; [done|]. rewrite append_cons. by f_equal.
Qed.

Lemma append_snoc (cur : string) c (s : string) :
  (cur +:+ String c "") +:+ s = cur +:+ String c s.
Proof.
  induction cur as [|a cur IH]; [done|]. rewrite !append_cons. by f_equal.
Qed.

Lemma prefix_cons a (s1 : string) b (s2 : string) :
  String.prefix (String a s1) (String b s2) =
  if ascii_dec a b then String.prefix s1 s2 else false.
Proof. reflexivity. Qed.

Lemma prefix_empty (s : string) : String.prefix "" s = true.
Proof. by destruct s. Qed.

Lemma prefix_of_empty a (s : string) : String.prefix (String a s) "" = false.
Proof. reflexivity. Qed.

(** Where the delimiter can start. *)
Lemma prefix_delim_cons c (X : string) :
  String.prefix "__" (String c X) =
  Ascii.eqb c "_"%char
  && match X with
     | String c' _ => Ascii.eqb c' "_"%char
     | EmptyString => false
     end.
Proof.
  rewrite prefix_cons. destruct (ascii_dec "_"%char c) as [<-|Hne].
  - rewrite Ascii.eqb_refl, andb_true_l. destruct X as [|c' X].
    + apply prefix_of_empty.
    + rewrite prefix_cons, prefix_empty.
      destruct (ascii_dec "_"%char c') as [<-|Hne'].
      * by rewrite Ascii.eqb_refl.
      * symmetry. apply Ascii.eqb_neq. congruence.
  - assert (Ascii.eqb c "_"%char = false) as ->; [|done].
    apply Ascii.eqb_neq. congruence.
Qed.

(** Inside a well-formed segment the delimiter does not start, whatever
    follows the segment, provided an underscore follows an empty rest. *)
Lemma seg_ok_no_delim c (s X : string) :
  seg_ok (String c s) = true ->
  (s = "" -> exists c' X', X = String c' X') ->
  String.prefix "__" (String c (s +:+ X)) = false.
Proof.
  intros Hok HX. rewrite prefix_delim_cons. simpl in Hok.
  apply andb_prop in Hok as [Hc _].
  destruct s as [|c' s].
  - rewrite orb_false_r in Hc. apply negb_true_iff in Hc. by rewrite Hc.
  - rewrite append_cons.
    apply orb_prop in Hc as [Hc|Hc]; apply negb_true_iff in Hc; rewrite Hc;
      [done|]. apply andb_false_r.
Qed.

Lemma seg_ok_tail c (s : string) : seg_ok (String c s) = true -> seg_ok s = true.
Proof. simpl. by intros [_ ?]%andb_prop. Qed.

(** A well-formed segment followed by the delimiter is cut there. *)
Lemma split_go_segment (s : string) : forall cur rest,
  seg_ok s = true ->
  split_go "__" (s +:+ "__" +:+ rest) cur 0 =
  (cur +:+ s) :: split_go "__" rest "" 0.
Proof.
  induction s as [|c s IH]; intros cur rest Hok.
  - rewrite append_nil_l, append_nil_r, !append_cons, append_nil_l.
    cbn [split_go]. rewrite prefix_delim_cons. reflexivity.
  - rewrite append_cons. cbn [split_go].
    rewrite (seg_ok_no_delim c s ("__" +:+ rest) Hok)
      by (rewrite !append_cons; eauto).
    rewrite IH by (by eapply seg_ok_tail). by rewrite append_snoc.
Qed.

(** A well-formed segment at the end of the key is the last piece. *)
Lemma split_go_last (s : string) : forall cur,
  seg_ok s = true -> split_go "__" s cur 0 = [cur +:+ s].
Proof.
  induction s as [|c s IH]; intros cur Hok.
  - simpl. by rewrite append_nil_r.
  - cbn [split_go].
    assert (String.prefix "__" (String c s) = false) as ->.
    { rewrite prefix_delim_cons. simpl in Hok.
      apply andb_prop in Hok as [Hc _].
      destruct s as [|c' s].
      - rewrite orb_false_r in Hc. apply negb_true_iff in Hc.
        by rewrite Hc.
      - apply orb_prop in Hc as [Hc|Hc]; apply negb_true_iff in Hc;
          rewrite Hc; [done|]. apply andb_false_r. }
    rewrite IH by (by eapply seg_ok_tail). by rewrite append_snoc.
Qed.

(** Splitting undoes joining, on well-formed segments. *)
Lemma split_join_key (segs : list string) :
  segs <> [] ->
  Forall (fun s => seg_ok s = true) segs ->
  split_key "__" (join_key "__" segs) = segs.
Proof.
  intros Hne Hall. unfold split_key, join_key.
  induction Hall as [|s segs Hs Hall IH]; [done|].
  destruct segs as [|s2 segs].
  - simpl. by rewrite split_go_last.
  - change (String.concat "__" (s :: s2 :: segs))
      with (s +:+ "__" +:+ String.concat "__" (s2 :: segs)).
    rewrite split_go_segment by done. rewrite append_nil_l. f_equal.
    by apply IH.
Qed.

Lemma nest_app p q V : nest (p ++ q)%list V = nest p (nest q V).
Proof. induction p as [|k p IH]; simpl; [done|]. by rewrite IH. Qed.

(** C9, as the code has it.  For a non-empty scalar [v], the variable
    [key=v] of an environment-style source gives the accumulated tree
    exactly what the nested entry [{p: {q: v}}] gives it, wherever the path
    that [key] splits into on [env_nested_delimiter] is cut into [p] and
    [q]; so the materializer builds the same from both.  A key path of
    well-formed segments is recovered from its joined name, so the same
    holds between the path's flat encoding and its nested entry.  (An empty
    [v] is left out: [env_ignore_empty] drops the variable.) *)
Theorem flat_key_equals_nested_entry (v : string) (t : Tree) :
  v <> "" ->
  (forall key p q,
     (p ++ q)%list = split_key (env_nested_delimiter model_config) key ->
     insert_source (env_entries model_config [(key, v)]) t
     = insert_source [(p, nest q (Scalar v))] t /\
     forall s (h : heap),
       materialize s
         (Some (insert_source (env_entries model_config [(key, v)]) t)) h
       = materialize s (Some (insert_source [(p, nest q (Scalar v))] t)) h) /\
  (forall segs p q,
     segs <> [] ->
     Forall (fun s => seg_ok s = true) segs ->
     (p ++ q)%list = segs ->
     split_key (env_nested_delimiter model_config)
       (join_key (env_nested_delimiter model_config) segs) = segs /\
     insert_source
       (env_entries model_config
          [(join_key (env_nested_delimiter model_config) segs, v)]) t
     = insert_source [(p, nest q (Scalar v))] t).
Proof.
  intros Hv.
  assert (forall key p q,
            (p ++ q)%list = split_key (env_nested_delimiter model_config) key ->
            insert_source (env_entries model_config [(key, v)]) t
            = insert_source [(p, nest q (Scalar v))] t) as Hkey.
  { intros key p q Hpq. unfold env_entries, parse_env_vars. simpl.
    assert (String.eqb v "" = false) as -> by (by apply String.eqb_neq).
    simpl. rewrite !insert_entry_nest. simpl.
    change (split_key "__" key)
      with (split_key (env_nested_delimiter model_config) key).
    by rewrite <- Hpq, nest_app. }
  split.
  - intros key p q Hpq. split; [by apply Hkey|].
    intros s h. by rewrite (Hkey key p q Hpq).
  - intros segs p q Hne Hall Hpq.
    pose proof (split_join_key segs Hne Hall) as Hsplit.
    split; [done|]. apply Hkey. simpl. by rewrite Hsplit.
Qed.

Lemma flat_key_equals_nested_entry_witness :
  split_key "__" "PARENT__CHILD" = ["PARENT"; "CHILD"] /\
  insert_source (env_entries model_config [("PARENT__CHILD", "7")]) empty_tree
  = insert_source [(["PARENT"], Node {[ "CHILD" := Scalar "7" ]})] empty_tree.
Proof.
  destruct (flat_key_equals_nested_entry "7" empty_tree) as [_ Hpath];
    [done|].
  apply (Hpath ["PARENT"; "CHILD"] ["PARENT"] ["CHILD"]).
  - done.
  - repeat constructor.
  - reflexivity.
Defined.

(** C9, as the spec words it, fails at the empty scalar: the variable
    [PARENT__CHILD=] is dropped by [env_ignore_empty], while the nested
    entry puts an empty string at [PARENT.CHILD]. *)
Lemma flat_key_as_stated_fails : ~ flat_key_as_stated.
Proof.
  intros H.
  specialize (H ["PARENT"; "CHILD"] ["PARENT"] ["CHILD"] "" empty_tree).
  assert (lookup_path ["PARENT"; "CHILD"]
            (insert_source
               (env_entries model_config
                  [(join_key (env_nested_delimiter model_config)
                      ["PARENT"; "CHILD"], "")]) empty_tree) = None)
    as Habsent by (vm_compute; reflexivity).
  rewrite H in Habsent.
  - vm_compute in Habsent. discriminate Habsent.
  - done.
  - repeat constructor.
  - reflexivity.
Qed.

(** An empty [DEBUG] in the operating-system environment does not hide the
    value the local env file gives. *)
Example empty_os_value_falls_through :
  lookup_path ["DEBUG"]
    (build_values model_config "BaseConfig"
       {| secrets_files := []; pyproject_toml := []; toml_file := [];
          os_environ := [("DEBUG", "")];
          dotenv_file := [("DEBUG", "true")];
          init_kwargs := [] |})
  = Some (Scalar "true").
Proof. vm_compute. reflexivity. Qed.

(** The nested-merge examples of the spec: [{A:{X:1}}] below [{A:{Y:2}}]
    gives [{A:{X:1,Y:2}}]; below [{A:5}] it gives [{A:5}]. *)
Example nested_merge_examples :
  merge_sources [ [(["A"], Node {[ "Y" := Scalar "2" ]})];
                  [(["A"], Node {[ "X" := Scalar "1" ]})] ]
  = Node {[ "A" := Node (<[ "X" := Scalar "1" ]> {[ "Y" := Scalar "2" ]}) ]} /\
  merge_sources [ [(["A"], Scalar "5")];
                  [(["A"], Node {[ "X" := Scalar "1" ]})] ]
  = Node {[ "A" := Scalar "5" ]}.
Proof. split; vm_compute; reflexivity. Qed.

(* ===================================================================== *)
(** * More on the hook and the registry *)
(* ===================================================================== *)

(** Running the default hook on an instance it has already run on changes
    nothing. *)
Lemma customize_again self (h h' : heap) :
  customize self h = (Ok (), h') -> customize self h' = (Ok (), h').
Proof.
  intros Hc.
  destruct (customize_ok_accepts _ _ _ Hc) as (apm' & Ha' & Hacc).
  apply customize_inv in Hc
    as [(e & ? & _)|(v & apm & _ & Hv & Ha & Hl & ->)]; [done|].
  rewrite Ha in Ha'. injection Ha' as <-.
  assert (getattr (store_attr h apm "ENVIRONMENT" v) apm "ENVIRONMENT" = Some v)
    as Hnested by (by apply getattr_store_attr_same).
  assert (is_Some (store_attr h apm "ENVIRONMENT" v !! apm)) as Hl'
    by (by apply store_attr_dom).
  rewrite (customize_total self _ v apm).
  - f_equal. by apply store_attr_id_iff.
  - destruct (decide (self = apm)) as [->|Hne]; [done|].
    rewrite getattr_store_attr_other; [done|]. by intros [= ?].
  - rewrite getattr_store_attr_other; [done|]. by intros [= _].
  - by apply accepts_assignment_store_attr.
Qed.

(** The default hook is idempotent, so registering an instance that is
    already registered is harmless: the second [set_global] returns, and
    leaves the heap and both registry attributes as the first left them
    (the hook having been invoked once more). *)
Theorem set_global_again_changes_nothing
    (E : class_env) (config : loc) (st st1 : pystate) (c : string) :
  type_of (heap_of st) config = Some c ->
  customize_of E c = Some customize ->
  set_global E config st = (Ok (), st1) ->
  customize config (heap_of st1) = (Ok (), heap_of st1) /\
  set_global E config st1 =
    (Ok (), {| heap_of := heap_of st1;
               __global_config := __global_config st1;
               __config_class_to_reload := __config_class_to_reload st1;
               customize_calls := customize_calls st1 ++ [config] |}).
Proof.
  intros Ht Hf Hs.
  destruct (set_global_ok_inv _ _ _ _ _ Hs) as (st0 & Hc & ->).
  rewrite (call_customize_hook E config st c customize Ht Hf) in Hc.
  destruct (customize config (heap_of st)) as [r h1] eqn:Hr. simpl in Hc.
  injection Hc as -> <-. simpl.
  pose proof (customize_again _ _ _ Hr) as Hagain.
  split; [done|].
  assert (type_of h1 config = Some c) as Ht1.
  { apply customize_inv in Hr
      as [(e & ? & _)|(v & apm & _ & _ & _ & _ & ->)]; [done|].
    by rewrite type_of_store_attr. }
  unfold set_global.
  match goal with
  | |- context [call_customize E config ?s] =>
      rewrite (call_customize_hook E config s c customize Ht1 Hf)
  end.
  simpl. rewrite Hagain. simpl. unfold publish. simpl. by rewrite Ht1.
Qed.

Lemma set_global_again_changes_nothing_witness :
  customize sample_instance (heap_of sample_set_state)
    = (Ok (), heap_of sample_set_state) /\
  set_global sample_classes sample_instance sample_set_state =
    (Ok (), {| heap_of := heap_of sample_set_state;
               __global_config := __global_config sample_set_state;
               __config_class_to_reload :=
                 __config_class_to_reload sample_set_state;
               customize_calls :=
                 customize_calls sample_set_state ++ [sample_instance] |}).
Proof.
  apply (set_global_again_changes_nothing sample_classes sample_instance
           sample_unset_state sample_set_state "BaseConfig").
  - vm_compute. reflexivity.
  - reflexivity.
  - vm_compute. reflexivity.
Defined.

(** [set_global] writes through a shared telemetry object: when [other]
    and [config] hold the same [ELASTIC_APM] object, registering [config]
    makes [other.ELASTIC_APM.ENVIRONMENT] equal to [config.ENVIRONMENT],
    whatever [other] showed before. *)
Theorem set_global_writes_through_shared_object
    (E : class_env) (other config apm : loc) (st st' : pystate)
    (c : string) (v : value) :
  type_of (heap_of st) config = Some c ->
  customize_of E c = Some customize ->
  getattr (heap_of st) other "ELASTIC_APM" = Some (VRef apm) ->
  getattr (heap_of st) config "ELASTIC_APM" = Some (VRef apm) ->
  getattr (heap_of st) config "ENVIRONMENT" = Some v ->
  set_global E config st = (Ok (), st') ->
  getattr (heap_of st') other "ELASTIC_APM" = Some (VRef apm) /\
  getattr (heap_of st') apm "ENVIRONMENT" = Some v.
Proof.
  intros Ht Hf Ho Ha Hv Hs.
  destruct (set_global_ok_inv _ _ _ _ _ Hs) as (st0 & Hc & ->).
  rewrite (call_customize_hook E config st c customize Ht Hf) in Hc.
  destruct (customize config (heap_of st)) as [r h1] eqn:Hr. simpl in Hc.
  injection Hc as -> <-. simpl.
  apply customize_inv in Hr
    as [(e & ? & _)|(v' & apm' & _ & Hv' & Ha' & Hl & ->)]; [done|].
  rewrite Hv in Hv'. injection Hv' as <-.
  rewrite Ha in Ha'. injection Ha' as <-. split.
  - rewrite getattr_store_attr_other; [done|]. by intros [= _].
  - by apply getattr_store_attr_same.
Qed.

Lemma set_global_writes_through_shared_object_witness :
  getattr shared_heap 2%positive "ENVIRONMENT" = Some (VScalar "LOCAL") /\
  getattr shared_heap 1%positive "ENVIRONMENT" = Some (VScalar "LOCAL") /\
  getattr
    (heap_of (set_global sample_classes 3%positive (initial_state shared_heap)).2)
    2%positive "ELASTIC_APM" = Some (VRef 1%positive) /\
  getattr
    (heap_of (set_global sample_classes 3%positive (initial_state shared_heap)).2)
    1%positive "ENVIRONMENT" = Some (VScalar "PRODUCTION").
Proof.
  split; [vm_compute; reflexivity|]. split; [vm_compute; reflexivity|].
  apply (set_global_writes_through_shared_object sample_classes 2%positive
           3%positive 1%positive (initial_state shared_heap) _ "BaseConfig").
  - vm_compute. reflexivity.
  - reflexivity.
  - vm_compute. reflexivity.
  - vm_compute. reflexivity.
  - vm_compute. reflexivity.
  - vm_compute. reflexivity.
Defined.

(** A [set_global] that raises has published nothing: the hook was invoked
    on the instance, but the registry holds what it held, and
    [global_config()] answers as before. *)
Theorem set_global_failure_publishes_nothing
    (E : class_env) (config : loc) (st st' : pystate) (e : exn) :
  set_global E config st = (Err e, st') ->
  __global_config st' = __global_config st /\
  __config_class_to_reload st' = __config_class_to_reload st /\
  (global_config st').1 = (global_config st).1 /\
  customize_calls st' = (customize_calls st ++ [config])%list.
Proof.
  intros Hs. pose proof (set_global_err_registry _ _ _ _ _ Hs) as [Hg Hc].
  split; [done|]. split; [done|]. split.
  - unfold global_config. rewrite Hg. by destruct (__global_config st).
  - apply set_global_err_inv in Hs. unfold call_customize in Hs.
    destruct (type_of (heap_of st) config ≫= customize_of E) as [f|];
      [|done].
    destruct (f config (heap_of st)) as [r h']. by injection Hs as _ <-.
Qed.

Lemma set_global_failure_publishes_nothing_witness :
  exists e st',
    set_global strict_classes 100%positive strict_state = (Err e, st') /\
    __global_config st' = Some sample_instance /\
    __config_class_to_reload st' = Some "BaseConfig" /\
    (global_config st').1 = Ok sample_instance /\
    customize_calls st' = [sample_instance; 100%positive].
Proof.
  exists (validation_error "refused by customize"),
         (set_global strict_classes 100%positive strict_state).2.
  split; [vm_compute; reflexivity|].
  apply (set_global_failure_publishes_nothing strict_classes 100%positive
           strict_state _ (validation_error "refused by customize")).
  vm_compute. reflexivity.
Defined.

(* ===================================================================== *)
(** * Invariants of the registry along a run *)
(* ===================================================================== *)

Lemma customize_keeps_classes self (h : heap) l :
  type_of (customize self h).2 l = type_of h l.
Proof.
  destruct (customize self h) as [r h'] eqn:Hc. simpl.
  apply customize_inv in Hc
    as [(e & _ & ->)|(v & apm & _ & _ & _ & _ & ->)]; [done|].
  apply type_of_store_attr.
Qed.

Lemma base_classes_keep_classes I : hooks_keep_classes (base_classes I).
Proof. intros c f [= <-] self h l. apply customize_keeps_classes. Qed.

Lemma call_customize_keeps_classes E config st r st1 :
  hooks_keep_classes E ->
  call_customize E config st = (r, st1) ->
  forall l, type_of (heap_of st1) l = type_of (heap_of st) l.
Proof.
  intros Hk Hc l. unfold call_customize in Hc.
  destruct (type_of (heap_of st) config) as [c|]; simpl in Hc;
    [|by injection Hc as _ <-].
  destruct (customize_of E c) as [f|] eqn:Hf; [|by injection Hc as _ <-].
  pose proof (Hk c f Hf config (heap_of st) l) as Hl.
  destruct (f config (heap_of st)) as [r' h']. by injection Hc as _ <-.
Qed.

Lemma extends_type_of (h h' : heap) l c :
  extends h h' -> type_of h l = Some c -> type_of h' l = Some c.
Proof.
  unfold type_of. intros He Ht.
  destruct (h !! l) as [o|] eqn:Hl; [|done].
  by rewrite (He l o Hl).
Qed.

Lemma set_global_coherent E config st :
  hooks_keep_classes E ->
  coherent st -> coherent (set_global E config st).2.
Proof.
  intros Hk Hco. unfold set_global.
  destruct (call_customize E config st) as [[[]|e] st1] eqn:Hc; [done|].
  simpl. pose proof (call_customize_registry _ _ _ _ _ Hc) as [Hg Hcl].
  pose proof (call_customize_keeps_classes _ _ _ _ _ Hk Hc) as Hty.
  unfold coherent in *. rewrite Hg, Hcl.
  destruct (__global_config st) as [i|]; [|done]. by rewrite Hty.
Qed.

Lemma with_heap_coherent st (h1 : heap) :
  extends (heap_of st) h1 ->
  is_Some (__config_class_to_reload st) ->
  coherent st -> coherent (with_heap st h1).
Proof.
  intros He [c Hc] Hco. unfold coherent in *. simpl.
  destruct (__global_config st) as [i|]; [|done].
  rewrite Hco in Hc |- *.
  destruct (type_of (heap_of st) i) as [ci|] eqn:Hty; [|done].
  by rewrite (extends_type_of _ _ _ _ He Hty).
Qed.

Lemma reload_coherent E w st :
  hooks_keep_classes E -> constructs_fresh E ->
  coherent st -> coherent (reload E w st).2.
Proof.
  intros Hk Hfresh Hco. unfold reload.
  destruct (__config_class_to_reload st) as [[c|l]|] eqn:Hc; [|done..].
  destruct (construct_of E c w (heap_of st)) as [[new|e] h1] eqn:Hnew;
    destruct (Hfresh _ _ _ _ _ Hnew) as [He _];
    assert (coherent (with_heap st h1)) as Hco1
      by (apply with_heap_coherent; [done|by rewrite Hc|done]).
  - by apply set_global_coherent.
  - done.
Qed.

Lemma do_call_coherent E c st :
  hooks_keep_classes E -> constructs_fresh E ->
  coherent st -> coherent (do_call E c st).2.
Proof.
  intros Hk Hfresh Hco. destruct c as [config|w|]; simpl.
  - pose proof (set_global_coherent E config st Hk Hco) as H.
    by destruct (set_global E config st).
  - pose proof (reload_coherent E w st Hk Hfresh Hco) as H.
    by destruct (reload E w st).
  - unfold global_config. by destruct (__global_config st) eqn:Hg.
Qed.

Lemma run_calls_coherent E cs : forall st,
  hooks_keep_classes E -> constructs_fresh E ->
  coherent st -> coherent (run_calls E cs st).2.
Proof.
  induction cs as [|c cs IH]; intros st Hk Hfresh Hco; [done|]. simpl.
  pose proof (do_call_coherent E c st Hk Hfresh Hco) as H1.
  destruct (do_call E c st) as [ok st1]. simpl in H1.
  specialize (IH st1 Hk Hfresh H1).
  by destruct (run_calls E cs st1).
Qed.

(** Once a [set_global] has returned, whatever the program calls next, in
    whatever order and with whatever outcome, the class the registry
    remembers is the class of the instance it holds, provided hooks do not
    change classes and constructors only allocate.  So [reload()] always
    rebuilds the class of the instance [global_config()] returns. *)
Theorem registry_stays_coherent
    (E : class_env) (config : loc) (st0 st : pystate) (cs : list call) :
  hooks_keep_classes E ->
  constructs_fresh E ->
  set_global E config st0 = (Ok (), st) ->
  coherent (run_calls E cs st).2 /\
  (forall i (c : string) w,
     __global_config (run_calls E cs st).2 = Some i ->
     type_of (heap_of (run_calls E cs st).2) i = Some c ->
     reload E w (run_calls E cs st).2 =
       match construct_of E c w (heap_of (run_calls E cs st).2) with
       | (Ok new, h1) => set_global E new (with_heap (run_calls E cs st).2 h1)
       | (Err e, h1) => (Err e, with_heap (run_calls E cs st).2 h1)
       end).
Proof.
  intros Hk Hfresh Hs.
  assert (coherent st) as Hst.
  { destruct (set_global_ok_inv _ _ _ _ _ Hs) as (st1 & _ & ->). done. }
  assert (coherent (run_calls E cs st).2) as Hco
    by (by apply run_calls_coherent).
  split; [done|]. intros i c w Hi Hty. unfold coherent in Hco.
  rewrite Hi, Hty in Hco. unfold reload. by rewrite Hco.
Qed.

Lemma registry_stays_coherent_witness :
  coherent
    (run_calls sample_classes
       [CallReload mixed_world; CallReload broken_world; CallGlobalConfig;
        CallSetGlobal sample_instance]
       sample_set_state).2.
Proof.
  destruct (registry_stays_coherent sample_classes sample_instance
              sample_unset_state sample_set_state
              [CallReload mixed_world; CallReload broken_world;
               CallGlobalConfig; CallSetGlobal sample_instance]) as [Hco _].
  - apply base_classes_keep_classes.
  - apply base_classes_construct_fresh.
  - vm_compute. reflexivity.
  - exact Hco.
Defined.

Lemma reload_keeps_class E w st :
  hooks_keep_classes E -> constructs_fresh E ->
  __config_class_to_reload (reload E w st).2 = __config_class_to_reload st.
Proof.
  intros Hk Hfresh.
  destruct (reload E w st) as [[[]|e] st'] eqn:Hre; simpl.
  2:{ by apply reload_err_registry in Hre as [_ ?]. }
  unfold reload in Hre.
  destruct (__config_class_to_reload st) as [[c|l]|] eqn:Hc; [|done..].
  destruct (construct_of E c w (heap_of st)) as [[new|e] h1] eqn:Hnew;
    [|done].
  destruct (Hfresh _ _ _ _ _ Hnew) as [_ Hn].
  destruct (Hn new eq_refl) as (_ & Hty & _).
  destruct (set_global_ok_inv _ _ _ _ _ Hre) as (st1 & Hcall & ->).
  simpl. rewrite (call_customize_keeps_classes _ _ _ _ _ Hk Hcall).
  simpl. by rewrite Hty.
Qed.

(** Only [set_global] changes the class the registry remembers: over any
    run of [reload()] and [global_config()] calls, returning or raising, in
    any worlds, the remembered class is the one the run started with. *)
Theorem only_set_global_changes_bound_class
    (E : class_env) (cs : list call) (st : pystate) :
  hooks_keep_classes E ->
  constructs_fresh E ->
  forallb (fun c => negb (calls_set_global c)) cs = true ->
  __config_class_to_reload (run_calls E cs st).2 = __config_class_to_reload st.
Proof.
  intros Hk Hfresh. revert st.
  induction cs as [|c cs IH]; intros st Hcs; [done|].
  simpl in Hcs. apply andb_prop in Hcs as [Hc Hcs]. simpl.
  assert (__config_class_to_reload (do_call E c st).2
          = __config_class_to_reload st) as H1.
  { destruct c as [config|w|]; [done| |]; simpl.
    - pose proof (reload_keeps_class E w st Hk Hfresh) as H.
      by destruct (reload E w st).
    - unfold global_config. by destruct (__global_config st). }
  destruct (do_call E c st) as [ok st1]. simpl in H1.
  specialize (IH st1 Hcs).
  destruct (run_calls E cs st1) as [later st2]. simpl in *. congruence.
Qed.

Lemma only_set_global_changes_bound_class_witness :
  __config_class_to_reload
    (run_calls sample_classes
       [CallReload mixed_world; CallReload broken_world; CallGlobalConfig;
        CallReload sample_world]
       sample_set_state).2
  = __config_class_to_reload sample_set_state.
Proof.
  apply (only_set_global_changes_bound_class sample_classes
           [CallReload mixed_world; CallReload broken_world; CallGlobalConfig;
            CallReload sample_world] sample_set_state).
  - apply base_classes_keep_classes.
  - apply base_classes_construct_fresh.
  - reflexivity.
Defined.

(* ===================================================================== *)
(** * What a run leaves of the heap *)
(* ===================================================================== *)

Section heap_frame.
Context (E : class_env) (R : heap -> heap -> Prop).
Hypothesis R_refl : forall h, R h h.
Hypothesis R_trans : forall h1 h2 h3, R h1 h2 -> R h2 h3 -> R h1 h3.
Hypothesis R_hook :
  forall c f self h, customize_of E c = Some f -> R h (f self h).2.
Hypothesis R_construct : forall c w h, R h (construct_of E c w h).2.

Lemma call_customize_frame config st :
  R (heap_of st) (heap_of (call_customize E config st).2).
Proof.
  unfold call_customize.
  destruct (type_of (heap_of st) config) as [c|]; simpl; [|done].
  destruct (customize_of E c) as [f|] eqn:Hf; [|done].
  pose proof (R_hook c f config (heap_of st) Hf) as H.
  by destruct (f config (heap_of st)).
Qed.

Lemma set_global_frame config st :
  R (heap_of st) (heap_of (set_global E config st).2).
Proof.
  unfold set_global. pose proof (call_customize_frame config st) as H.
  by destruct (call_customize E config st) as [[[]|e] st1].
Qed.

Lemma reload_frame w st :
  R (heap_of st) (heap_of (reload E w st).2).
Proof.
  unfold reload.
  destruct (__config_class_to_reload st) as [[c|l]|]; [|done..].
  pose proof (R_construct c w (heap_of st)) as Hc.
  destruct (construct_of E c w (heap_of st)) as [[new|e] h1]; [|done].
  eapply R_trans; [exact Hc|]. apply (set_global_frame new (with_heap st h1)).
Qed.

Lemma run_calls_frame cs : forall st,
  R (heap_of st) (heap_of (run_calls E cs st).2).
Proof.
  induction cs as [|c cs IH]; intros st; [done|]. simpl.
  assert (R (heap_of st) (heap_of (do_call E c st).2)) as H1.
  { destruct c as [config|w|]; simpl.
    - pose proof (set_global_frame config st) as H.
      by destruct (set_global E config st).
    - pose proof (reload_frame w st) as H. by destruct (reload E w st).
    - unfold global_config. by destruct (__global_config st). }
  destruct (do_call E c st) as [ok st1]. simpl in H1.
  specialize (IH st1). destruct (run_calls E cs st1) as [later st2].
  simpl in *. by eapply R_trans.
Qed.
End heap_frame.

(** In a program that does not override the hook, the only attribute the
    registry ever writes on an existing object is [ENVIRONMENT]: over any
    run, every other attribute an object had it still has, with the same
    value. *)
Theorem only_environment_is_written
    (E : class_env) (cs : list call) (st : pystate)
    (l : loc) (name : string) (v : value) :
  default_hooks E ->
  constructs_fresh E ->
  name <> "ENVIRONMENT" ->
  getattr (heap_of st) l name = Some v ->
  getattr (heap_of (run_calls E cs st).2) l name = Some v.
Proof.
  intros Hd Hfresh Hname.
  apply (run_calls_frame E
           (fun h h' => forall l v,
              getattr h l name = Some v -> getattr h' l name = Some v)).
  - done.
  - intros h1 h2 h3 H12 H23 l' v' Hl. by apply H23, H12.
  - intros c' f self h Hf l' v' Hl. rewrite (Hd c' f Hf).
    destruct (customize self h) as [r h'] eqn:Hc. simpl.
    apply customize_inv in Hc
      as [(e & _ & ->)|(v0 & apm & _ & _ & _ & _ & ->)]; [done|].
    rewrite getattr_store_attr_other; [done|]. by intros [= _ ?].
  - intros c' w h l' v' Hl.
    destruct (construct_of E c' w h) as [r h'] eqn:Hnew.
    destruct (Hfresh _ _ _ _ _ Hnew) as [He _]. simpl.
    unfold getattr in *. destruct (h !! l') as [o|] eqn:Ho; [|done].
    by rewrite (He l' o Ho).
Qed.

Lemma only_environment_is_written_witness :
  getattr
    (heap_of
       (run_calls sample_classes
          [CallReload mixed_world; CallSetGlobal sample_instance;
           CallReload broken_world]
          sample_set_state).2)
    4%positive "SERVICE_NAME" = Some (VScalar "billing").
Proof.
  apply (only_environment_is_written sample_classes).
  - by intros c f [= <-].
  - apply base_classes_construct_fresh.
  - done.
  - vm_compute. reflexivity.
Defined.
